(** * Tracking-App: click recording and deferred enrichment

    A shallow embedding of the three server programs of the repository:

    - [Basic]    : [server.js], whose schema keeps a click counter only;
    - [Records]  : the second program of [unnamed/part_000], which also keeps
                   a click record per resolution and redirects directly;
    - [Enhanced] : the first program of [unnamed/part_000], which serves an
                   interstitial page and merges a follow-up payload into the
                   last click record.

    The helpers [parseUserAgent], [getClientIp] and [getGeolocation] have the
    same text in both programs of [unnamed/part_000] and are embedded once.

    Conventions of the embedding:
    - a JavaScript string is a [string] of bytes, as Node reads a header
      (one Latin-1 character per byte); [toLowerCase] maps the ASCII capitals
      and leaves every other byte as it is, since no character above 127
      lower-cases to an ASCII letter there;
    - a JavaScript number that is a coordinate is a binary64 [float]; the
      click counter, timestamps and ports are integers in [Z];
    - the document store is a finite map from [linkId] (which the schema
      declares [unique]) to the stored document, and is always reachable;
    - the outside world (the answers of ip-api.com and the readings of the
      system clock) is part of the state the handlers run in. *)

From Stdlib Require Import PrimFloat ZArith String Ascii List.
From Stdlib Require Import DecimalString Sorted.
From stdpp Require Import gmap strings list.

Local Open Scope string_scope.
Local Open Scope Z_scope.

(** ** JavaScript values *)

Module Js.

(** A property of the type [A] that may also be missing or [null]. *)
Inductive value (A : Type) : Type :=
| undefined : value A
| null : value A
| val (a : A) : value A.

Arguments undefined {A}.
Arguments null {A}.
Arguments val {A} a.

(** Truthiness of a string: every string but the empty one. *)
Definition truthyString (s : string) : bool := negb (String.eqb s "").

(** Truthiness of a number: every number but [0], [-0] and [NaN]. *)
Definition truthyNumber (x : float) : bool :=
  negb (PrimFloat.eqb x 0%float) && PrimFloat.eqb x x.

(** Truthiness of an integer number. *)
Definition truthyInt (n : Z) : bool := negb (n =? 0).

Definition truthy {A} (t : A -> bool) (v : value A) : bool :=
  match v with
  | val a => t a
  | _ => false
  end.

(** [v || d] where [d] is a string literal. *)
Definition orString (v : value string) (d : string) : string :=
  match v with
  | val s => if truthyString s then s else d
  | _ => d
  end.

(** [a || b]. *)
Definition or {A} (t : A -> bool) (a b : value A) : value A :=
  if truthy t a then a else b.

(** [v !== undefined]. *)
Definition defined {A} (v : value A) : bool :=
  match v with
  | undefined => false
  | _ => true
  end.

(** [v !== undefined && v !== null]. *)
Definition definedNotNull {A} (v : value A) : bool :=
  match v with
  | val _ => true
  | _ => false
  end.

(** A looked-up property: present or [undefined]. *)
Definition ofOption {A} (o : option A) : value A :=
  match o with
  | Some a => val a
  | None => undefined
  end.

(** *** The string methods the programs call *)

Definition lowerAscii (c : ascii) : ascii :=
  let n := nat_of_ascii c in
  if ((65 <=? n) && (n <=? 90))%nat then ascii_of_nat (n + 32) else c.

Fixpoint toLowerCase (s : string) : string :=
  match s with
  | EmptyString => EmptyString
  | String c s' => String (lowerAscii c) (toLowerCase s')
  end.

(** [s.includes(pat)]. *)
Fixpoint includes (s pat : string) : bool :=
  String.prefix pat s ||
  match s with
  | EmptyString => false
  | String _ s' => includes s' pat
  end.

Fixpoint dropString (n : nat) (s : string) : string :=
  match n, s with
  | O, _ => s
  | S n', String _ s' => dropString n' s'
  | S _, EmptyString => EmptyString
  end.

(** [s.replace(pat, rep)] for a string pattern: the first occurrence only. *)
Fixpoint replace (s pat rep : string) : string :=
  if String.prefix pat s then rep +:+ dropString (String.length pat) s
  else
    match s with
    | EmptyString => EmptyString
    | String c s' => String c (replace s' pat rep)
    end.

(** [s.split(sep)[0]] for a one-character separator. *)
Fixpoint splitFirst (sep : ascii) (s : string) : string :=
  match s with
  | EmptyString => EmptyString
  | String c s' =>
      if Ascii.eqb c sep then EmptyString else String c (splitFirst sep s')
  end.

(** A template literal's rendering of a value that may be missing. *)
Definition render (v : value string) : string :=
  match v with
  | undefined => "undefined"
  | null => "null"
  | val s => s
  end.

(** The decimal rendering of an integer number. *)
Definition renderInt (n : Z) : string := NilEmpty.string_of_int (Z.to_int n).

End Js.

(** ** The user-agent classifier *)

Record Classification := {
  cl_browser : string;
  cl_os : string;
  cl_device : string
}.

Definition parseUserAgent (userAgent : string) : Classification :=
  let ua := Js.toLowerCase userAgent in
  let browser :=
    if Js.includes ua "chrome" && negb (Js.includes ua "edg") then "Chrome"
    else if Js.includes ua "safari" && negb (Js.includes ua "chrome") then "Safari"
    else if Js.includes ua "firefox" then "Firefox"
    else if Js.includes ua "edg" then "Edge"
    else if Js.includes ua "opera" || Js.includes ua "opr" then "Opera"
    else "Unknown" in
  let os :=
    if Js.includes ua "windows" then "Windows"
    else if Js.includes ua "mac" then "macOS"
    else if Js.includes ua "linux" then "Linux"
    else if Js.includes ua "android" then "Android"
    else if Js.includes ua "iphone" || Js.includes ua "ipad" then "iOS"
    else "Unknown" in
  let device :=
    if Js.includes ua "mobile" then "Mobile"
    else if Js.includes ua "tablet" || Js.includes ua "ipad" then "Tablet"
    else "Desktop" in
  {| cl_browser := browser; cl_os := os; cl_device := device |}.

(** Case-insensitive containment, as the classifier tests it. *)
Definition mentions (userAgent pat : string) : bool :=
  Js.includes (Js.toLowerCase userAgent) pat.

Definition browserLabels : list string :=
  ["Chrome"; "Safari"; "Firefox"; "Edge"; "Opera"; "Unknown"].
Definition osLabels : list string :=
  ["Windows"; "macOS"; "Linux"; "Android"; "iOS"; "Unknown"].
Definition deviceLabels : list string := ["Mobile"; "Tablet"; "Desktop"].

(** ** The stored documents (the [linkSchema] of the three programs) *)

(** Milliseconds since the epoch. *)
Definition Date := Z.

(** One element of [clickRecords]. The paths after [referrer] exist in the
    schema of [Enhanced] only; a record written by [Records] leaves them
    [undefined]. *)
Record ClickRecord := {
  timestamp : Date;
  ipAddress : string;
  country : string;
  city : string;
  region : string;
  latitude : Js.value float;
  longitude : Js.value float;
  userAgent : string;
  browser : string;
  os : string;
  device : string;
  referrer : string;
  cameraPermission : Js.value string;
  locationPermission : Js.value string;
  userLatitude : Js.value float;
  userLongitude : Js.value float;
  portNumber : Js.value Z;
  connectionType : Js.value string;
  screenResolution : Js.value string;
  language : Js.value string;
  timezone : Js.value string
}.

(** A document of the [links] collection. [server.js] declares no
    [clickRecords] path: the documents it creates carry no record, and its
    updates never touch the records a document has. *)
Record Link := {
  linkId : string;
  name : string;
  destinationUrl : string;
  clicks : Z;
  createdAt : Date;
  lastClicked : option Date;
  clickRecords : list ClickRecord
}.

(** ** Requests and responses *)

(** [req.connection] and [req.socket] name the same socket. *)
Record Socket := {
  remoteAddress : Js.value string;
  remotePort : Js.value Z
}.

(** The body of [POST /api/track-update/:linkId]. *)
Record Payload := {
  p_cameraPermission : Js.value string;
  p_locationPermission : Js.value string;
  p_userLatitude : Js.value float;
  p_userLongitude : Js.value float;
  p_screenResolution : Js.value string;
  p_language : Js.value string;
  p_timezone : Js.value string;
  p_connectionType : Js.value string
}.

Record Request := {
  params_linkId : string;
  protocol : string;
  headers : gmap string string;
  socket : Socket
}.

Inductive Response : Type :=
| SendText (status : Z) (text : string)
| SendJson (status : Z) (success : bool) (message : string)
| CreatedLink (link : Link) (trackingUrl : string)
| Redirect (url : string)
| Interstitial (apiBase linkId destinationUrl : string).

Definition statusOf (r : Response) : Z :=
  match r with
  | SendText s _ => s
  | SendJson s _ _ => s
  | CreatedLink _ _ => 200
  | Redirect _ => 302
  | Interstitial _ _ _ => 200
  end.

(** ** The world a handler runs in *)

(** What ip-api.com sends back for a coordinate lookup. *)
Record IpApiData := {
  d_status : Js.value string;
  d_country : Js.value string;
  d_city : Js.value string;
  d_regionName : Js.value string;
  d_lat : Js.value float;
  d_lon : Js.value float
}.

(** The body of a response: text that is no JSON, the JSON [null], or a JSON
    object (a JSON number, string or boolean reads like an object in which
    every field is [undefined]). *)
Inductive HttpBody : Type :=
| NotJson
| JsonNull
| JsonObject (data : IpApiData).

Inductive FetchOutcome : Type :=
| NetworkError
| Responded (body : HttpBody).

Record World := {
  db : gmap string Link;
  network : string -> FetchOutcome;
  fetchLog : list string;
  clock : nat -> Date;
  clockReads : nat
}.

Definition withDb (w : World) (d : gmap string Link) : World :=
  {| db := d; network := network w; fetchLog := fetchLog w;
     clock := clock w; clockReads := clockReads w |}.

(** ** Computations that read and write the world and may throw *)

Inductive Completion (A : Type) : Type :=
| Normal (a : A)
| Throw (error : string).

Arguments Normal {A} a.
Arguments Throw {A} error.

Definition Eff (A : Type) : Type := World -> Completion A * World.

Definition ret {A} (a : A) : Eff A := fun w => (Normal a, w).

Definition throw {A} (error : string) : Eff A := fun w => (Throw error, w).

Definition bind {A B} (m : Eff A) (k : A -> Eff B) : Eff B :=
  fun w =>
    match m w with
    | (Normal a, w') => k a w'
    | (Throw e, w') => (Throw e, w')
    end.

(** [try { body } catch (error) { handler }]. *)
Definition tryCatch {A} (body : Eff A) (handler : string -> Eff A) : Eff A :=
  fun w =>
    match body w with
    | (Normal a, w') => (Normal a, w')
    | (Throw e, w') => handler e w'
    end.

Declare Scope eff_scope.
Delimit Scope eff_scope with eff.
Notation "'let*' x ':=' m 'in' k" :=
  (bind m (fun x => k))
  (at level 10, x name, m at level 100, k at level 200) : eff_scope.
Notation "m ';;' k" :=
  (bind m (fun _ => k))
  (at level 100, k at level 200, right associativity) : eff_scope.

Local Open Scope eff_scope.

(** The world after one more reading of the clock. *)
Definition tick (w : World) : World :=
  {| db := db w; network := network w; fetchLog := fetchLog w;
     clock := clock w; clockReads := S (clockReads w) |}.

(** [new Date()] and [Date.now()]. *)
Definition newDate : Eff Date :=
  fun w => (Normal (clock w (clockReads w)), tick w).

(** [await fetch(url)]: the request is sent; a network failure rejects. *)
Definition fetch (url : string) : Eff HttpBody :=
  fun w =>
    let w' := {| db := db w; network := network w;
                 fetchLog := fetchLog w ++ [url];
                 clock := clock w; clockReads := clockReads w |} in
    match network w url with
    | NetworkError => (Throw "fetch failed", w')
    | Responded body => (Normal body, w')
    end.

(** [await response.json()] followed by the read of [data.status]. *)
Definition json (response : HttpBody) : Eff IpApiData :=
  match response with
  | NotJson => throw "Unexpected token in JSON"
  | JsonNull => throw "Cannot read properties of null (reading 'status')"
  | JsonObject data => ret data
  end.

(** *** The store *)

Definition findOne (id : string) : Eff (option Link) :=
  fun w => (Normal (db w !! id), w).

(** [Link.findOneAndUpdate({ linkId }, update, { new: true })]: no document
    is made when none matches. *)
Definition findOneAndUpdate (id : string) (update : Link -> Link)
  : Eff (option Link) :=
  fun w =>
    match db w !! id with
    | Some l => (Normal (Some (update l)), withDb w (<[id := update l]> (db w)))
    | None => (Normal None, w)
    end.

Definition findOneAndDelete (id : string) : Eff (option Link) :=
  fun w => (Normal (db w !! id), withDb w (delete id (db w))).

(** [await newLink.save()] of a new document: the unique index on [linkId]
    rejects a second document with the same identifier. *)
Definition saveNew (l : Link) : Eff unit :=
  fun w =>
    match db w !! linkId l with
    | Some _ => (Throw "E11000 duplicate key error", w)
    | None => (Normal tt, withDb w (<[linkId l := l]> (db w)))
    end.

(** [await link.save()] of a document that was read from the store: it is
    written back to the place [key] it was read from. *)
Definition save (key : string) (l : Link) : Eff unit :=
  fun w => (Normal tt, withDb w (<[key := l]> (db w))).

(** ** Request metadata *)

Definition header (req : Request) (h : string) : Js.value string :=
  Js.ofOption (headers req !! h).

Definition getClientIp (req : Request) : string :=
  let forwarded :=
    match header req "x-forwarded-for" with
    | Js.val s => Js.val (Js.splitFirst "," s)
    | _ => Js.undefined
    end in
  Js.orString
    (Js.or Js.truthyString forwarded
       (Js.or Js.truthyString (header req "x-real-ip")
          (Js.or Js.truthyString (remoteAddress (socket req))
             (remoteAddress (socket req)))))
    "Unknown".

(** ** The IP geolocation resolver *)

Record GeoData := {
  g_country : string;
  g_city : string;
  g_region : string;
  g_latitude : Js.value float;
  g_longitude : Js.value float
}.

Definition unknownGeo : GeoData :=
  {| g_country := "Unknown"; g_city := "Unknown"; g_region := "Unknown";
     g_latitude := Js.null; g_longitude := Js.null |}.

Definition cleanIpOf (ip : string) : string := Js.replace ip "::ffff:" "".

Definition isLocal (cleanIp : string) : bool :=
  String.eqb cleanIp "127.0.0.1" || String.eqb cleanIp "::1"
  || String.eqb cleanIp "Unknown".

Definition lookupUrl (cleanIp : string) : string :=
  "http://ip-api.com/json/" +:+ cleanIp.

Definition isSuccess (status : Js.value string) : bool :=
  match status with
  | Js.val s => String.eqb s "success"
  | _ => false
  end.

(** The [try] block yields [Some g] when it returns [g] and [None] when it
    runs to its end; the [catch] block logs and falls through. *)
Definition getGeolocation (ip : string) : Eff GeoData :=
  let* returned :=
    tryCatch
      (let cleanIp := cleanIpOf ip in
       if isLocal cleanIp then ret (Some unknownGeo)
       else
         let* response := fetch (lookupUrl cleanIp) in
         let* data := json response in
         if isSuccess (d_status data) then
           ret (Some {| g_country := Js.orString (d_country data) "Unknown";
                        g_city := Js.orString (d_city data) "Unknown";
                        g_region := Js.orString (d_regionName data) "Unknown";
                        g_latitude := Js.or Js.truthyNumber (d_lat data) Js.null;
                        g_longitude := Js.or Js.truthyNumber (d_lon data) Js.null |})
         else ret None)
      (fun error => ret None) in
  match returned with
  | Some g => ret g
  | None => ret unknownGeo
  end.

(** ** The routes the three programs share *)

(** The body of [POST /api/links]. *)
Record CreateBody := {
  b_name : Js.value string;
  b_destinationUrl : Js.value string
}.

(** The schema's [required: true] on a string path, checked by [save]. *)
Definition required (path : string) (v : Js.value string) : Eff string :=
  match v with
  | Js.val s =>
      if Js.truthyString s then ret s
      else throw ("Path `" +:+ path +:+ "` is required.")
  | _ => throw ("Path `" +:+ path +:+ "` is required.")
  end.

Definition trackingUrlOf (req : Request) (id : string) : string :=
  protocol req +:+ "://" +:+ Js.render (header req "host") +:+ "/track/" +:+ id.

(** [app.post('/api/links')]; [rnd] is the suffix drawn from [Math.random]. *)
Definition post_links (req : Request) (body : CreateBody) (rnd : string)
  : Eff Response :=
  tryCatch
    (let* now := newDate in
     let id := "link_" +:+ Js.renderInt now +:+ "_" +:+ rnd in
     let* created := newDate in
     let* name := required "name" (b_name body) in
     let* destination := required "destinationUrl" (b_destinationUrl body) in
     let newLink :=
       {| linkId := id; name := name; destinationUrl := destination;
          clicks := 0; createdAt := created; lastClicked := None;
          clickRecords := [] |} in
     saveNew newLink ;;
     ret (CreatedLink newLink (trackingUrlOf req id)))
    (fun error => ret (SendJson 500 false error)).

(** [app.delete('/api/links/:linkId')]. *)
Definition delete_link (id : string) : Eff Response :=
  tryCatch
    (findOneAndDelete id ;; ret (SendJson 200 true ""))
    (fun error => ret (SendJson 500 false error)).

(** [{ $inc: { clicks: 1 }, $set: { lastClicked: now } }]. *)
Definition incAndSet (now : Date) (l : Link) : Link :=
  {| linkId := linkId l; name := name l; destinationUrl := destinationUrl l;
     clicks := clicks l + 1; createdAt := createdAt l;
     lastClicked := Some now; clickRecords := clickRecords l |}.

(** [{ $inc: { clicks: 1 }, $set: { lastClicked: now },
       $push: { clickRecords: clickRecord } }]. *)
Definition incSetAndPush (now : Date) (clickRecord : ClickRecord) (l : Link)
  : Link :=
  {| linkId := linkId l; name := name l; destinationUrl := destinationUrl l;
     clicks := clicks l + 1; createdAt := createdAt l;
     lastClicked := Some now;
     clickRecords := clickRecords l ++ [clickRecord] |}.

(** The requests that reach a route which writes to the store. *)
Inductive Call : Type :=
| PostLinks (req : Request) (body : CreateBody) (rnd : string)
| DeleteLink (id : string)
| GetTrack (req : Request)
| PostTrackUpdate (id : string) (body : Payload).

(** ** [server.js] *)

Module Basic.

(** [app.get('/track/:linkId')]. *)
Definition get_track (req : Request) : Eff Response :=
  tryCatch
    (let id := params_linkId req in
     let* now := newDate in
     let* link := findOneAndUpdate id (incAndSet now) in
     match link with
     | None => ret (SendText 404 "Tracking link not found")
     | Some link => ret (Redirect (destinationUrl link))
     end)
    (fun error => ret (SendText 500 "Error processing tracking link")).

(** No route matches [POST /api/track-update/:linkId]. *)
Definition app (c : Call) : Eff Response :=
  match c with
  | PostLinks req body rnd => post_links req body rnd
  | DeleteLink id => delete_link id
  | GetTrack req => get_track req
  | PostTrackUpdate id _ =>
      ret (SendText 404 ("Cannot POST /api/track-update/" +:+ id))
  end.

End Basic.

(** ** The second program of [unnamed/part_000] *)

Module Records.

Definition clickRecordOf (now : Date) (ip userAgent referrer : string)
    (ua : Classification) (geoData : GeoData) : ClickRecord :=
  {| timestamp := now;
     ipAddress := ip;
     country := g_country geoData;
     city := g_city geoData;
     region := g_region geoData;
     latitude := g_latitude geoData;
     longitude := g_longitude geoData;
     userAgent := userAgent;
     browser := cl_browser ua;
     os := cl_os ua;
     device := cl_device ua;
     referrer := referrer;
     cameraPermission := Js.undefined;
     locationPermission := Js.undefined;
     userLatitude := Js.undefined;
     userLongitude := Js.undefined;
     portNumber := Js.undefined;
     connectionType := Js.undefined;
     screenResolution := Js.undefined;
     language := Js.undefined;
     timezone := Js.undefined |}.

(** [app.get('/track/:linkId')]. *)
Definition get_track (req : Request) : Eff Response :=
  tryCatch
    (let id := params_linkId req in
     let ipAddress := getClientIp req in
     let userAgent := Js.orString (header req "user-agent") "Unknown" in
     let referrer :=
       Js.orString
         (Js.or Js.truthyString (header req "referer") (header req "referrer"))
         "Direct" in
     let ua := parseUserAgent userAgent in
     let* geoData := getGeolocation ipAddress in
     let* stamp := newDate in
     let clickRecord :=
       clickRecordOf stamp ipAddress userAgent referrer ua geoData in
     let* now := newDate in
     let* link := findOneAndUpdate id (incSetAndPush now clickRecord) in
     match link with
     | None => ret (SendText 404 "Tracking link not found")
     | Some link => ret (Redirect (destinationUrl link))
     end)
    (fun error => ret (SendText 500 "Error processing tracking link")).

Definition app (c : Call) : Eff Response :=
  match c with
  | PostLinks req body rnd => post_links req body rnd
  | DeleteLink id => delete_link id
  | GetTrack req => get_track req
  | PostTrackUpdate id _ =>
      ret (SendText 404 ("Cannot POST /api/track-update/" +:+ id))
  end.

End Records.

(** ** The first program of [unnamed/part_000] *)

Module Enhanced.

Definition clickRecordOf (now : Date) (ip userAgent referrer : string)
    (ua : Classification) (geoData : GeoData) (port : Js.value Z)
  : ClickRecord :=
  {| timestamp := now;
     ipAddress := ip;
     country := g_country geoData;
     city := g_city geoData;
     region := g_region geoData;
     latitude := g_latitude geoData;
     longitude := g_longitude geoData;
     userAgent := userAgent;
     browser := cl_browser ua;
     os := cl_os ua;
     device := cl_device ua;
     referrer := referrer;
     cameraPermission := Js.val "not_requested";
     locationPermission := Js.val "not_requested";
     userLatitude := Js.undefined;
     userLongitude := Js.undefined;
     portNumber := port;
     connectionType := Js.val "Unknown";
     screenResolution := Js.val "Unknown";
     language := Js.val "Unknown";
     timezone := Js.val "Unknown" |}.

Definition apiBaseOf (req : Request) : string :=
  protocol req +:+ "://" +:+ Js.render (header req "host").

(** [app.get('/track/:linkId')]. *)
Definition get_track (req : Request) : Eff Response :=
  tryCatch
    (let id := params_linkId req in
     let ipAddress := getClientIp req in
     let userAgent := Js.orString (header req "user-agent") "Unknown" in
     let referrer :=
       Js.orString
         (Js.or Js.truthyString (header req "referer") (header req "referrer"))
         "Direct" in
     let ua := parseUserAgent userAgent in
     let* geoData := getGeolocation ipAddress in
     let port :=
       Js.or Js.truthyInt (remotePort (socket req))
         (Js.or Js.truthyInt (remotePort (socket req)) Js.null) in
     let* stamp := newDate in
     let clickRecord :=
       clickRecordOf stamp ipAddress userAgent referrer ua geoData port in
     let* link := findOne id in
     match link with
     | None => ret (SendText 404 "Tracking link not found")
     | Some link =>
         let destination := destinationUrl link in
         let* now := newDate in
         findOneAndUpdate id (incSetAndPush now clickRecord) ;;
         ret (Interstitial (apiBaseOf req) id destination)
     end)
    (fun error => ret (SendText 500 "Error processing tracking link")).

(** [if (x !== undefined) record.f = x]. *)
Definition assignIfDefined {A} (x old : Js.value A) : Js.value A :=
  if Js.defined x then x else old.

(** [if (x !== undefined && x !== null) record.f = x]. *)
Definition assignIfNotNull {A} (x old : Js.value A) : Js.value A :=
  if Js.definedNotNull x then x else old.

(** The eight conditional assignments to [link.clickRecords[lastIndex]]. *)
Definition mergePayload (body : Payload) (r : ClickRecord) : ClickRecord :=
  {| timestamp := timestamp r;
     ipAddress := ipAddress r;
     country := country r;
     city := city r;
     region := region r;
     latitude := latitude r;
     longitude := longitude r;
     userAgent := userAgent r;
     browser := browser r;
     os := os r;
     device := device r;
     referrer := referrer r;
     cameraPermission :=
       assignIfDefined (p_cameraPermission body) (cameraPermission r);
     locationPermission :=
       assignIfDefined (p_locationPermission body) (locationPermission r);
     userLatitude := assignIfNotNull (p_userLatitude body) (userLatitude r);
     userLongitude := assignIfNotNull (p_userLongitude body) (userLongitude r);
     portNumber := portNumber r;
     connectionType :=
       assignIfDefined (p_connectionType body) (connectionType r);
     screenResolution :=
       assignIfDefined (p_screenResolution body) (screenResolution r);
     language := assignIfDefined (p_language body) (language r);
     timezone := assignIfDefined (p_timezone body) (timezone r) |}.

Definition withClickRecords (l : Link) (records : list ClickRecord) : Link :=
  {| linkId := linkId l; name := name l; destinationUrl := destinationUrl l;
     clicks := clicks l; createdAt := createdAt l;
     lastClicked := lastClicked l; clickRecords := records |}.

Definition notFound : Eff Response :=
  ret (SendJson 404 false "Link or record not found").

(** [app.post('/api/track-update/:linkId')]. *)
Definition post_track_update (id : string) (body : Payload) : Eff Response :=
  tryCatch
    (let* link := findOne id in
     match link with
     | None => notFound
     | Some link =>
         if (length (clickRecords link) =? 0)%nat then notFound
         else
           let lastIndex := (length (clickRecords link) - 1)%nat in
           let link :=
             withClickRecords link
               (alter (mergePayload body) lastIndex (clickRecords link)) in
           save id link ;;
           ret (SendJson 200 true "Tracking data updated")
     end)
    (fun error => ret (SendJson 500 false error)).

Definition app (c : Call) : Eff Response :=
  match c with
  | PostLinks req body rnd => post_links req body rnd
  | DeleteLink id => delete_link id
  | GetTrack req => get_track req
  | PostTrackUpdate id body => post_track_update id body
  end.

End Enhanced.

(** ** Runs of a program *)

(** The worlds a program can be in: it starts on an empty collection and
    serves one call after the other. *)
Inductive reachable (app : Call -> Eff Response) : World -> Prop :=
| reach_start w : db w = ∅ -> reachable app w
| reach_serve w c : reachable app w -> reachable app (snd (app c w)).

(** The data-model invariant: every stored link counts its click records. *)
Definition countsItsRecords (l : Link) : Prop :=
  clicks l = Z.of_nat (length (clickRecords l)).

Definition storeInvariant (d : gmap string Link) : Prop :=
  forall id l, d !! id = Some l -> countsItsRecords l.

(** ** The routes that only read the store *)

(** [Link.find()]: every document of the collection, in the order the store
    lists them. *)
Definition find : Eff (list Link) :=
  fun w => (Normal ((map_to_list (db w)).*2), w).

(** [.sort({ createdAt: -1 })]: newest first. *)
Fixpoint insertNewest (l : Link) (sorted : list Link) : list Link :=
  match sorted with
  | [] => [l]
  | l' :: rest =>
      if createdAt l' <? createdAt l then l :: sorted
      else l' :: insertNewest l rest
  end.

Definition sortNewestFirst (links : list Link) : list Link :=
  foldr insertNewest [] links.

(** What the reading routes answer. *)
Inductive ReadReply : Type :=
| LinksJson (links : list Link)
| RecordsJson (name destinationUrl : string) (clicks : Z) (createdAt : Date)
    (records : list ClickRecord)
| ErrorJson (status : Z) (error : string).

(** [app.get('/api/links')]. *)
Definition get_links : Eff ReadReply :=
  tryCatch
    (let* links := find in
     ret (LinksJson (sortNewestFirst links)))
    (fun error => ret (ErrorJson 500 error)).

(** [app.get('/api/links/:linkId/records')], a route of both programs of
    [unnamed/part_000]. *)
Definition get_records (id : string) : Eff ReadReply :=
  tryCatch
    (let* link := findOne id in
     match link with
     | None => ret (ErrorJson 404 "Link not found")
     | Some link =>
         ret (RecordsJson (name link) (destinationUrl link) (clicks link)
                (createdAt link) (clickRecords link))
     end)
    (fun error => ret (ErrorJson 500 error)).

(** The two counts of [app.get('/api/analytics')]: [links.length] and
    [links.reduce((sum, link) => sum + link.clicks, 0)]. The third figure,
    [avgClicks], is the rounding of a floating-point quotient and is not
    part of this development. *)
Definition totalLinks (links : list Link) : Z := Z.of_nat (length links).

Definition totalClicks (links : list Link) : Z :=
  foldl (fun sum link => sum + clicks link) 0 links.

Definition analyticsTotals : Eff (Z * Z) :=
  let* links := find in
  ret (totalLinks links, totalClicks links).

(** ** The script of the interstitial page *)

Module Page.

(** The error a rejected permission request carries: a [DOMException], a
    [GeolocationPositionError] (which has a [code]) or the [Error('timeout')]
    of the page's own timer. *)
Record PageError := {
  e_name : string;
  e_message : string;
  e_code : Js.value Z
}.

(** How [getUserMedia], raced against the timer, settles. *)
Inductive CameraAttempt : Type :=
| CameraStream
| CameraRejected (error : PageError).

(** How [getCurrentPosition], raced against the timer, settles. *)
Inductive LocationAttempt : Type :=
| Position (latitude longitude : float)
| LocationRejected (error : PageError).

(** What the script reads from the browser. [None] stands for an API that
    the browser does not have. *)
Record Browser := {
  screenWidth : Z;
  screenHeight : Z;
  navigatorLanguage : Js.value string;
  timeZone : Js.value string;
  connection : option (Js.value string);
  mediaDevices : option CameraAttempt;
  geolocation : option LocationAttempt
}.

(** The [catch] block of the camera request. *)
Definition cameraError (error : PageError) : string :=
  if String.eqb (e_name error) "NotAllowedError"
     || String.eqb (e_message error) "Permission denied" then "denied"
  else if String.eqb (e_name error) "NotFoundError" then "no_camera"
  else if String.eqb (e_message error) "timeout" then "timeout"
  else "not_supported".

Definition codeIs (error : PageError) (n : Z) : bool :=
  match e_code error with
  | Js.val c => c =? n
  | _ => false
  end.

(** The [catch] block of the location request. *)
Definition locationError (error : PageError) : string :=
  if codeIs error 1 || String.eqb (e_message error) "User denied Geolocation"
  then "denied"
  else if codeIs error 2 then "unavailable"
  else if codeIs error 3 || String.eqb (e_message error) "timeout"
  then "timeout"
  else "error".

(** [trackingData] as it stands when it is sent. *)
Definition collectTrackingData (b : Browser) : Payload :=
  let camera :=
    match mediaDevices b with
    | Some CameraStream => "granted"
    | Some (CameraRejected error) => cameraError error
    | None => "not_supported"
    end in
  let location :=
    match geolocation b with
    | Some (Position _ _) => "granted"
    | Some (LocationRejected error) => locationError error
    | None => "not_supported"
    end in
  {| p_cameraPermission := Js.val camera;
     p_locationPermission := Js.val location;
     p_userLatitude :=
       match geolocation b with
       | Some (Position latitude _) => Js.val latitude
       | _ => Js.undefined
       end;
     p_userLongitude :=
       match geolocation b with
       | Some (Position _ longitude) => Js.val longitude
       | _ => Js.undefined
       end;
     p_screenResolution :=
       Js.val (Js.renderInt (screenWidth b) +:+ "x"
               +:+ Js.renderInt (screenHeight b));
     p_language := navigatorLanguage b;
     p_timezone := timeZone b;
     p_connectionType :=
       match connection b with
       | Some effectiveType => effectiveType
       | None => Js.val "Unknown"
       end |}.

(** A number after [JSON.stringify] and [JSON.parse]: a number that is not
    finite is written as [null], and [-0] is written as [0]. *)
Definition wireNumber (v : Js.value float) : Js.value float :=
  match v with
  | Js.val x =>
      if PrimFloat.is_finite x
      then if PrimFloat.eqb x 0%float then Js.val 0%float else Js.val x
      else Js.null
  | other => other
  end.

(** The body [express.json()] hands to the route for the
    [JSON.stringify(trackingData)] the page sends. *)
Definition requestBody (trackingData : Payload) : Payload :=
  {| p_cameraPermission := p_cameraPermission trackingData;
     p_locationPermission := p_locationPermission trackingData;
     p_userLatitude := wireNumber (p_userLatitude trackingData);
     p_userLongitude := wireNumber (p_userLongitude trackingData);
     p_screenResolution := p_screenResolution trackingData;
     p_language := p_language trackingData;
     p_timezone := p_timezone trackingData;
     p_connectionType := p_connectionType trackingData |}.

End Page.

(** ** The vocabulary of the properties *)

(** The inputs the resolver answers by itself. *)
Definition localInputs : list string :=
  ["127.0.0.1"; "::1"; "Unknown";
   "::ffff:127.0.0.1"; "::ffff:::1"; "::ffff:Unknown"].

(** The lookups that count as failed: no answer, an answer that is no JSON
    or the JSON [null], or an answer whose status is not "success". *)
Definition lookupFailed (o : FetchOutcome) : bool :=
  match o with
  | NetworkError => true
  | Responded NotJson => true
  | Responded JsonNull => true
  | Responded (JsonObject data) => negb (isSuccess (d_status data))
  end.

(** The deferred-enrichment fields of a record no payload has reached. *)
Definition atSentinelDefaults (r : ClickRecord) : Prop :=
  cameraPermission r = Js.val "not_requested" /\
  locationPermission r = Js.val "not_requested" /\
  screenResolution r = Js.val "Unknown" /\
  language r = Js.val "Unknown" /\
  timezone r = Js.val "Unknown" /\
  connectionType r = Js.val "Unknown" /\
  userLatitude r = Js.undefined /\
  userLongitude r = Js.undefined.

(** A record that has none of the deferred-enrichment paths. *)
Definition noDeferredFields (r : ClickRecord) : Prop :=
  cameraPermission r = Js.undefined /\
  locationPermission r = Js.undefined /\
  userLatitude r = Js.undefined /\
  userLongitude r = Js.undefined /\
  portNumber r = Js.undefined /\
  connectionType r = Js.undefined /\
  screenResolution r = Js.undefined /\
  language r = Js.undefined /\
  timezone r = Js.undefined.

(** The port a record keeps for a connection: the remote port when there is
    one and it is not 0, [null] otherwise. *)
Definition portKept (remote port : Js.value Z) : Prop :=
  (Js.truthy Js.truthyInt remote = true -> port = remote) /\
  (Js.truthy Js.truthyInt remote = false -> port = Js.null).

(** [l'] is [l] with one more click, counted at a reading of the clock that
    [w] had not made yet, and with nothing else changed but [clickRecords]. *)
Definition countedOnce (w : World) (l l' : Link) : Prop :=
  clicks l' = clicks l + 1 /\
  (exists n, (clockReads w <= n)%nat /\ lastClicked l' = Some (clock w n)) /\
  linkId l' = linkId l /\ name l' = name l /\
  destinationUrl l' = destinationUrl l /\ createdAt l' = createdAt l.

(** A field that is overwritten exactly when the payload has it. *)
Definition mergedIfPresent {A} (x old new : Js.value A) : Prop :=
  (x = Js.undefined -> new = old) /\ (x <> Js.undefined -> new = x).

(** A field that is overwritten exactly when the payload has it and it is
    not [null]. *)
Definition mergedIfNotNull {A} (x old new : Js.value A) : Prop :=
  (x = Js.undefined \/ x = Js.null -> new = old) /\
  (forall a, x = Js.val a -> new = Js.val a).

(** The fields of a click record that no payload field is merged into. *)
Definition sameClick (r r' : ClickRecord) : Prop :=
  timestamp r' = timestamp r /\ ipAddress r' = ipAddress r /\
  country r' = country r /\ city r' = city r /\ region r' = region r /\
  latitude r' = latitude r /\ longitude r' = longitude r /\
  userAgent r' = userAgent r /\ browser r' = browser r /\ os r' = os r /\
  device r' = device r /\ referrer r' = referrer r /\
  portNumber r' = portNumber r.

(** The link's own fields, the click records apart. *)
Definition sameLinkFields (l l' : Link) : Prop :=
  linkId l' = linkId l /\ name l' = name l /\
  destinationUrl l' = destinationUrl l /\ clicks l' = clicks l /\
  createdAt l' = createdAt l /\ lastClicked l' = lastClicked l.

(** ** Sample requests and worlds *)

Definition quietWorld : World :=
  {| db := ∅; network := fun _ => NetworkError; fetchLog := [];
     clock := fun n => 1700000000000 + Z.of_nat n; clockReads := 0 |}.

Definition equatorData : IpApiData :=
  {| d_status := Js.val "success"; d_country := Js.val "Ecuador";
     d_city := Js.val "Quito"; d_regionName := Js.val "Pichincha";
     d_lat := Js.val 0%float; d_lon := Js.val (-78.5)%float |}.

Definition equatorWorld : World :=
  {| db := ∅; network := fun _ => Responded (JsonObject equatorData);
     fetchLog := []; clock := fun n => 1700000000000 + Z.of_nat n;
     clockReads := 0 |}.

Definition browserRequest (id : string) : Request :=
  {| params_linkId := id; protocol := "https";
     headers := {[ "host" := "trk.example.org";
                   "user-agent" := "Mozilla/5.0 (X11; Linux x86_64) Gecko/20100101 Firefox/121.0";
                   "x-forwarded-for" := "203.0.113.7, 10.0.0.2" ]};
     socket := {| remoteAddress := Js.val "::ffff:10.0.0.2";
                  remotePort := Js.val 51234 |} |}.

Definition newLinkBody : CreateBody :=
  {| b_name := Js.val "Spring campaign";
     b_destinationUrl := Js.val "https://example.org/spring" |}.

(** The identifier [post_links] gives to a link made at the first reading
    of the clock of [quietWorld]. *)
Definition springId : string := "link_1700000000000_k3j9x2m1q".

Definition springLink : Link :=
  {| linkId := springId; name := "Spring campaign";
     destinationUrl := "https://example.org/spring";
     clicks := 0; createdAt := 1700000000001; lastClicked := None;
     clickRecords := [] |}.

Definition createdWorld : World :=
  snd (Basic.app (PostLinks (browserRequest "") newLinkBody "k3j9x2m1q")
         quietWorld).

Definition basicClicked : World :=
  snd (Basic.app (GetTrack (browserRequest springId)) createdWorld).

Definition enhancedClicked : World :=
  snd (Enhanced.app (GetTrack (browserRequest springId))
         (snd (Enhanced.app
                 (PostLinks (browserRequest "") newLinkBody "k3j9x2m1q")
                 quietWorld))).

Definition grantedPayload : Payload :=
  {| p_cameraPermission := Js.val "denied";
     p_locationPermission := Js.val "granted";
     p_userLatitude := Js.val 40.5%float;
     p_userLongitude := Js.val (-3.75)%float;
     p_screenResolution := Js.val "1920x1080";
     p_language := Js.val "es-ES";
     p_timezone := Js.val "Europe/Madrid";
     p_connectionType := Js.val "4g" |}.

(** A payload that carries nothing but [userLatitude: null]. *)
Definition nullLatitudePayload : Payload :=
  {| p_cameraPermission := Js.undefined;
     p_locationPermission := Js.undefined;
     p_userLatitude := Js.null;
     p_userLongitude := Js.undefined;
     p_screenResolution := Js.undefined;
     p_language := Js.undefined;
     p_timezone := Js.undefined;
     p_connectionType := Js.undefined |}.

(** A payload in which every field is [null]. *)
Definition allNullPayload : Payload :=
  {| p_cameraPermission := Js.null; p_locationPermission := Js.null;
     p_userLatitude := Js.null; p_userLongitude := Js.null;
     p_screenResolution := Js.null; p_language := Js.null;
     p_timezone := Js.null; p_connectionType := Js.null |}.

Definition enrichedWorld : World :=
  snd (Enhanced.app (PostTrackUpdate springId grantedPayload) enhancedClicked).

(** A resolver result that can be stored as it is: the three names are not
    empty and each coordinate is [null] or a number other than zero. *)
Definition storableCoordinate (v : Js.value float) : Prop :=
  v = Js.null \/ exists x, v = Js.val x /\ Js.truthyNumber x = true.

Definition storableGeo (g : GeoData) : Prop :=
  g_country g <> "" /\ g_city g <> "" /\ g_region g <> "" /\
  storableCoordinate (g_latitude g) /\ storableCoordinate (g_longitude g).

(** The first entry of the forwarded-for header is missing or empty. *)
Definition noForwardedEntry (req : Request) : Prop :=
  headers req !! "x-forwarded-for" = None \/
  exists s, headers req !! "x-forwarded-for" = Some s /\
            Js.splitFirst "," s = "".

(** The header [h] is missing or empty. *)
Definition noHeader (req : Request) (h : string) : Prop :=
  headers req !! h = None \/ headers req !! h = Some "".

Definition proxiedRequest : Request :=
  {| params_linkId := springId; protocol := "http";
     headers := {[ "x-forwarded-for" := ", 10.0.0.2";
                   "x-real-ip" := "198.51.100.9" ]};
     socket := {| remoteAddress := Js.val "::ffff:10.0.0.2";
                  remotePort := Js.val 40000 |} |}.

Definition androidPhone : string :=
  "Mozilla/5.0 (Linux; Android 10; SM-G973F) AppleWebKit/537.36 (KHTML, like Gecko) Chrome/120.0.0.0 Mobile Safari/537.36".

Definition operaDesktop : string :=
  "Mozilla/5.0 (Windows NT 10.0; Win64; x64) AppleWebKit/537.36 (KHTML, like Gecko) Chrome/120.0.0.0 Safari/537.36 OPR/106.0.0.0".

(** A body field that the schema's [required] refuses. *)
Definition refused (v : Js.value string) : Prop :=
  Js.truthy Js.truthyString v = false.

(** The identifier [post_links] makes in the world [w] with the random
    suffix [rnd]. *)
Definition nextLinkId (w : World) (rnd : string) : string :=
  "link_" +:+ Js.renderInt (clock w (clockReads w)) +:+ "_" +:+ rnd.

(** A request for the tracking link [id] from the local machine. *)
Definition localRequest (id : string) : Request :=
  {| params_linkId := id; protocol := "http";
     headers := {[ "host" := "localhost:3000" ]};
     socket := {| remoteAddress := Js.val "::1"; remotePort := Js.val 50000 |} |}.

(** The record the interstitial program makes for the request [req] at the
    reading [stamp] of the clock, with the resolver's answer [g]. *)
Definition enhancedRecord (req : Request) (stamp : Date) (g : GeoData)
  : ClickRecord :=
  let ua := Js.orString (header req "user-agent") "Unknown" in
  Enhanced.clickRecordOf stamp (getClientIp req) ua
    (Js.orString
       (Js.or Js.truthyString (header req "referer") (header req "referrer"))
       "Direct")
    (parseUserAgent ua) g
    (Js.or Js.truthyInt (remotePort (socket req))
       (Js.or Js.truthyInt (remotePort (socket req)) Js.null)).

(** Every link is stored under its own identifier. *)
Definition keyedStore (d : gmap string Link) : Prop :=
  forall id l, d !! id = Some l -> linkId l = id.

(** A clock that never runs backwards. *)
Definition monotoneClock (clk : nat -> Date) : Prop :=
  forall m n, (m <= n)%nat -> clk m <= clk n.

(** The click records of [l] are in the order of their timestamps, and none
    is later than [lastClicked]. *)
Definition chronological (l : Link) : Prop :=
  StronglySorted Z.le (timestamp <$> clickRecords l) /\
  Forall (fun stamp => exists t, lastClicked l = Some t /\ stamp <= t)
    (timestamp <$> clickRecords l).

(** [chronological], with the readings of the clock the timestamps are. *)
Definition stamped (clk : nat -> Date) (reads : nat) (l : Link) : Prop :=
  chronological l /\
  Forall (fun stamp => exists n, (n < reads)%nat /\ stamp = clk n)
    (timestamp <$> clickRecords l).

(** The clock of [w'] is that of [w], read some more times. *)
Definition clockKept (w w' : World) : Prop :=
  clock w' = clock w /\ (clockReads w <= clockReads w')%nat.

(** The ways one call changes the store: not at all, by a new link without
    records, by a deletion, by a click that is only counted (when
    [counting]), by a click that is counted and recorded at the next two
    readings of the clock, or by a merge into the last record. *)
Inductive Write (counting : bool) (w w' : World) : Prop :=
| write_none :
    db w' = db w -> Write counting w w'
| write_create (l : Link) :
    db w !! linkId l = None -> clickRecords l = [] ->
    db w' = <[linkId l := l]> (db w) -> Write counting w w'
| write_delete (id : string) :
    db w' = delete id (db w) -> Write counting w w'
| write_count (id : string) (l : Link) (now : Date) :
    counting = true -> db w !! id = Some l ->
    db w' = <[id := incAndSet now l]> (db w) -> Write counting w w'
| write_click (id : string) (l : Link) (r : ClickRecord) :
    db w !! id = Some l -> timestamp r = clock w (clockReads w) ->
    db w' = <[id := incSetAndPush (clock w (S (clockReads w))) r l]> (db w) ->
    clockReads w' = S (S (clockReads w)) -> Write counting w w'
| write_merge (id : string) (l : Link) (older : list ClickRecord)
    (last : ClickRecord) (body : Payload) :
    db w !! id = Some l -> clickRecords l = (older ++ [last])%list ->
    db w' = <[id := Enhanced.withClickRecords l
                      (older ++ [Enhanced.mergePayload body last])]> (db w) ->
    Write counting w w'.

(** [a] was created no earlier than [b]. *)
Definition newerOrSame (a b : Link) : Prop := createdAt b <= createdAt a.

(** The clicks counted over the whole store. *)
Definition storeClicks (d : gmap string Link) : Z :=
  totalClicks ((map_to_list d).*2).

(** The click records kept over a list of links. *)
Definition totalRecords (links : list Link) : Z :=
  Z.of_nat (length (links ≫= clickRecords)).

Definition cameraLabels : list string :=
  ["granted"; "denied"; "no_camera"; "timeout"; "not_supported"].

Definition locationLabels : list string :=
  ["granted"; "denied"; "unavailable"; "timeout"; "error"; "not_supported"].

(** A coordinate as the store can hold it after a post of the page: not
    set, or a finite number. *)
Definition unsetOrFinite (v : Js.value float) : Prop :=
  v = Js.undefined \/ exists x, v = Js.val x /\ PrimFloat.is_finite x = true.

(** A phone that grants the location and has no camera. *)
Definition phone : Page.Browser :=
  {| Page.screenWidth := 390; Page.screenHeight := 844;
     Page.navigatorLanguage := Js.val "es-ES";
     Page.timeZone := Js.val "Europe/Madrid";
     Page.connection := Some (Js.val "4g");
     Page.mediaDevices :=
       Some (Page.CameraRejected
               {| Page.e_name := "NotFoundError";
                  Page.e_message := "Requested device not found";
                  Page.e_code := Js.val 8 |});
     Page.geolocation := Some (Page.Position 40.5%float (-3.75)%float) |}.

(** The link of [enhancedClicked], resolved a second time, from the local
    machine. *)
Definition twiceClicked : World :=
  snd (Enhanced.app (GetTrack (localRequest springId)) enhancedClicked).

(** A payload with the camera answer and the latitude only, and a [null]
    longitude. *)
Definition partialPayload : Payload :=
  {| p_cameraPermission := Js.val "granted";
     p_locationPermission := Js.undefined;
     p_userLatitude := Js.val 40.5%float;
     p_userLongitude := Js.null;
     p_screenResolution := Js.undefined;
     p_language := Js.undefined;
     p_timezone := Js.undefined;
     p_connectionType := Js.undefined |}.

(** [twiceClicked] after a merge, a third resolution and a second merge. *)
Definition busyWorld : World :=
  snd (Enhanced.app (PostTrackUpdate springId partialPayload)
         (snd (Enhanced.app (GetTrack (browserRequest springId))
                 (snd (Enhanced.app (PostTrackUpdate springId grantedPayload)
                         twiceClicked))))).

(** * Properties *)

(** ** The user-agent classifier *)

Example ua_edge :
  parseUserAgent "Mozilla/5.0 (Windows NT 10.0; Win64; x64) AppleWebKit/537.36 (KHTML, like Gecko) Chrome/120.0.0.0 Safari/537.36 Edg/120.0.0.0"
  = {| cl_browser := "Edge"; cl_os := "Windows"; cl_device := "Desktop" |}.
Proof. vm_compute. reflexivity. Qed.

Example ua_iphone :
  parseUserAgent "Mozilla/5.0 (iPhone; CPU iPhone OS 17_0 like Mac OS X) AppleWebKit/605.1.15 (KHTML, like Gecko) Version/17.0 Mobile/15E148 Safari/604.1"
  = {| cl_browser := "Safari"; cl_os := "macOS"; cl_device := "Mobile" |}.
Proof. vm_compute. reflexivity. Qed.

(** Case analysis on every test of a chain of conditionals. *)
Ltac case_conditions :=
  repeat match goal with
         | |- context [if ?b then _ else _] => destruct b
         end.

Lemma browser_label (ua : string) :
  In (cl_browser (parseUserAgent ua)) browserLabels.
Proof.
  unfold parseUserAgent, browserLabels; cbn [cl_browser].
  case_conditions; cbn; tauto.
Qed.

Lemma os_label (ua : string) : In (cl_os (parseUserAgent ua)) osLabels.
Proof.
  unfold parseUserAgent, osLabels; cbn [cl_os].
  case_conditions; cbn; tauto.
Qed.

Lemma device_label (ua : string) :
  In (cl_device (parseUserAgent ua)) deviceLabels.
Proof.
  unfold parseUserAgent, deviceLabels; cbn [cl_device].
  case_conditions; cbn; tauto.
Qed.

(** C4, as stated, fails: a user-agent that mentions "chrome", "edg" and
    "firefox" is classified as Firefox, since the Firefox test comes before
    the Edge test. *)
Lemma parseUserAgent_edge_counterexample :
  mentions "Chrome Edg Firefox" "chrome" = true /\
  mentions "Chrome Edg Firefox" "edg" = true /\
  cl_browser (parseUserAgent "Chrome Edg Firefox") = "Firefox" /\
  cl_browser (parseUserAgent "Chrome Edg Firefox") <> "Edge".
Proof. repeat split; try reflexivity. discriminate. Qed.

(** C4 (amended): for every user-agent string, one that mentions both
    "chrome" and "edg" is never classified as Chrome, and is classified as
    Edge unless it also mentions "firefox", in which case it is Firefox; one
    that mentions "chrome" and "safari" but not "edg" is Chrome; one that
    mentions "safari" but not "chrome" is Safari; and the three labels
    returned are always among the fixed browser, OS and device labels. *)
Theorem parseUserAgent_precedence (ua : string) :
  (mentions ua "chrome" = true -> mentions ua "edg" = true ->
   cl_browser (parseUserAgent ua) <> "Chrome") /\
  (mentions ua "chrome" = true -> mentions ua "edg" = true ->
   mentions ua "firefox" = false ->
   cl_browser (parseUserAgent ua) = "Edge") /\
  (mentions ua "chrome" = true -> mentions ua "edg" = true ->
   mentions ua "firefox" = true ->
   cl_browser (parseUserAgent ua) = "Firefox") /\
  (mentions ua "chrome" = true -> mentions ua "safari" = true ->
   mentions ua "edg" = false ->
   cl_browser (parseUserAgent ua) = "Chrome") /\
  (mentions ua "safari" = true -> mentions ua "chrome" = false ->
   cl_browser (parseUserAgent ua) = "Safari") /\
  In (cl_browser (parseUserAgent ua)) browserLabels /\
  In (cl_os (parseUserAgent ua)) osLabels /\
  In (cl_device (parseUserAgent ua)) deviceLabels.
Proof.
  unfold mentions.
  repeat apply conj;
    try (intros; unfold parseUserAgent; cbn [cl_browser];
         repeat match goal with
                | H : Js.includes _ _ = _ |- _ => rewrite H; clear H
                end;
         repeat match goal with
                | |- context [Js.includes ?s ?pat] =>
                    destruct (Js.includes s pat)
                end; cbn; congruence).
  - apply browser_label.
  - apply os_label.
  - apply device_label.
Qed.

Lemma parseUserAgent_precedence_witness :
  mentions "Mozilla/5.0 Chrome/120.0 Safari/537.36 Edg/120.0" "chrome" = true /\
  mentions "Mozilla/5.0 Chrome/120.0 Safari/537.36 Edg/120.0" "edg" = true /\
  mentions "Mozilla/5.0 Chrome/120.0 Safari/537.36 Edg/120.0" "firefox" = false /\
  cl_browser (parseUserAgent "Mozilla/5.0 Chrome/120.0 Safari/537.36 Edg/120.0")
  = "Edge".
Proof.
  split; [reflexivity |]. split; [reflexivity |]. split; [reflexivity |].
  apply (proj1 (proj2
    (parseUserAgent_precedence "Mozilla/5.0 Chrome/120.0 Safari/537.36 Edg/120.0")));
    reflexivity.
Defined.

(** ** The IP geolocation resolver *)

Example replace_first_only :
  Js.replace "::ffff:::ffff:10.0.0.1" "::ffff:" "" = "::ffff:10.0.0.1".
Proof. reflexivity. Qed.

(** The resolver only ever adds to the log of requests sent. *)
Lemma getGeolocation_total (ip : string) (w : World) :
  exists g w', getGeolocation ip w = (Normal g, w') /\
    db w' = db w /\ network w' = network w /\
    clock w' = clock w /\ clockReads w' = clockReads w.
Proof.
  unfold getGeolocation, bind, tryCatch.
  destruct (isLocal (cleanIpOf ip)); [cbn; eauto 10 |].
  unfold fetch.
  destruct (network w (lookupUrl (cleanIpOf ip))) as [| [| | data]];
    cbn; eauto 10.
  destruct (isSuccess (d_status data)); cbn; eauto 10.
Qed.

(** C6: for "127.0.0.1", "::1", "Unknown" and their "::ffff:"-prefixed
    forms the resolver returns the all-Unknown/null result and leaves the
    world as it was: no request is sent. *)
Theorem getGeolocation_local (ip : string) (w : World) :
  In ip localInputs ->
  getGeolocation ip w = (Normal unknownGeo, w) /\
  fetchLog (snd (getGeolocation ip w)) = fetchLog w.
Proof.
  intros Hin. cbn in Hin.
  repeat (destruct Hin as [<- | Hin]; [split; reflexivity |]).
  contradiction.
Qed.

Lemma getGeolocation_local_witness :
  In "::ffff:127.0.0.1" localInputs /\
  fetchLog (snd (getGeolocation "::ffff:127.0.0.1" quietWorld)) = [].
Proof.
  split.
  - cbn. tauto.
  - refine (proj2 (getGeolocation_local "::ffff:127.0.0.1" quietWorld _)).
    cbn. tauto.
Defined.

(** C5: the resolver never throws, and whenever the lookup fails (network
    error, a body that is no JSON or is [null], or a status other than
    "success") it returns the all-Unknown/null result. *)
Theorem getGeolocation_never_throws (ip : string) (w : World) :
  (exists g, fst (getGeolocation ip w) = Normal g) /\
  (lookupFailed (network w (lookupUrl (cleanIpOf ip))) = true ->
   fst (getGeolocation ip w) = Normal unknownGeo).
Proof.
  split.
  - destruct (getGeolocation_total ip w) as (g & w' & -> & _). eauto.
  - unfold getGeolocation, bind, tryCatch, fetch.
    destruct (isLocal (cleanIpOf ip)); [reflexivity |].
    destruct (network w (lookupUrl (cleanIpOf ip))) as [| [| | data]];
      cbn; try reflexivity.
    destruct (isSuccess (d_status data)); cbn; [discriminate | reflexivity].
Qed.

Lemma getGeolocation_never_throws_witness :
  lookupFailed (network quietWorld (lookupUrl (cleanIpOf "8.8.8.8"))) = true /\
  fst (getGeolocation "8.8.8.8" quietWorld) = Normal unknownGeo.
Proof.
  split.
  - reflexivity.
  - refine (proj2 (getGeolocation_never_throws "8.8.8.8" quietWorld) _).
    reflexivity.
Defined.

(** C10: when the lookup succeeds and reports a latitude (or a longitude)
    equal to zero, the resolver returns [null] for that coordinate. *)
Theorem getGeolocation_zero_coordinate
    (ip : string) (w : World) (data : IpApiData) :
  isLocal (cleanIpOf ip) = false ->
  network w (lookupUrl (cleanIpOf ip)) = Responded (JsonObject data) ->
  isSuccess (d_status data) = true ->
  exists g, fst (getGeolocation ip w) = Normal g /\
    (forall x, d_lat data = Js.val x -> PrimFloat.eqb x 0%float = true ->
               g_latitude g = Js.null) /\
    (forall x, d_lon data = Js.val x -> PrimFloat.eqb x 0%float = true ->
               g_longitude g = Js.null).
Proof.
  intros Hlocal Hnet Hok.
  unfold getGeolocation, bind, tryCatch, fetch.
  rewrite Hlocal, Hnet. cbn. rewrite Hok. cbn.
  eexists; split; [reflexivity |]. cbn.
  split; intros x -> Hx; unfold Js.or, Js.truthy, Js.truthyNumber;
    rewrite Hx; reflexivity.
Qed.

Example geolocation_on_the_equator :
  getGeolocation "::ffff:186.4.0.1" equatorWorld =
  (Normal {| g_country := "Ecuador"; g_city := "Quito";
             g_region := "Pichincha"; g_latitude := Js.null;
             g_longitude := Js.val (-78.5)%float |},
   {| db := ∅; network := network equatorWorld;
      fetchLog := ["http://ip-api.com/json/186.4.0.1"];
      clock := clock equatorWorld; clockReads := 0 |}).
Proof. reflexivity. Qed.

Lemma getGeolocation_zero_coordinate_witness :
  exists g, fst (getGeolocation "186.4.0.1" equatorWorld) = Normal g /\
    (forall x, Js.val 0%float = Js.val x -> PrimFloat.eqb x 0%float = true ->
               g_latitude g = Js.null) /\
    (forall x, Js.val (-78.5)%float = Js.val x ->
               PrimFloat.eqb x 0%float = true ->
               g_longitude g = Js.null).
Proof.
  apply (getGeolocation_zero_coordinate "186.4.0.1" equatorWorld equatorData);
    reflexivity.
Defined.

Example getClientIp_forwarded :
  getClientIp (browserRequest "x") = "203.0.113.7".
Proof. vm_compute. reflexivity. Qed.

Example create_then_lookup :
  db (snd (post_links (browserRequest "") newLinkBody "k3j9x2m1q" quietWorld))
    !! "link_1700000000000_k3j9x2m1q"
  = Some {| linkId := "link_1700000000000_k3j9x2m1q";
            name := "Spring campaign";
            destinationUrl := "https://example.org/spring";
            clicks := 0; createdAt := 1700000000001; lastClicked := None;
            clickRecords := [] |}.
Proof. vm_compute. reflexivity. Qed.

(** ** What one call does to the store *)

Section Runs.

Variable req : Request.
Variable w : World.

Let id := params_linkId req.

(** [server.js]: one clock reading, then the update of the document. *)
Lemma basic_get_track_run :
  Basic.get_track req w =
  match db w !! id with
  | Some l =>
      (Normal (Redirect (destinationUrl l)),
       withDb (tick w) (<[id := incAndSet (clock w (clockReads w)) l]> (db w)))
  | None => (Normal (SendText 404 "Tracking link not found"), tick w)
  end.
Proof.
  unfold Basic.get_track, tryCatch, bind, newDate, findOneAndUpdate, id.
  cbn. destruct (db w !! params_linkId req); reflexivity.
Qed.

Variable geoData : GeoData.
Variable w1 : World.
Hypothesis resolved : getGeolocation (getClientIp req) w = (Normal geoData, w1).

Let userAgentOf := Js.orString (header req "user-agent") "Unknown".
Let referrerOf :=
  Js.orString
    (Js.or Js.truthyString (header req "referer") (header req "referrer"))
    "Direct".

Lemma records_get_track_run :
  Records.get_track req w =
  let r := Records.clickRecordOf (clock w1 (clockReads w1)) (getClientIp req)
             userAgentOf referrerOf (parseUserAgent userAgentOf) geoData in
  let w2 := tick (tick w1) in
  match db w1 !! id with
  | Some l =>
      (Normal (Redirect (destinationUrl l)),
       withDb w2
         (<[id := incSetAndPush (clock w1 (S (clockReads w1))) r l]> (db w1)))
  | None => (Normal (SendText 404 "Tracking link not found"), w2)
  end.
Proof.
  unfold Records.get_track, tryCatch, bind. rewrite resolved.
  unfold newDate, findOneAndUpdate, id. cbn.
  destruct (db w1 !! params_linkId req); reflexivity.
Qed.

Lemma enhanced_get_track_run :
  Enhanced.get_track req w =
  let port :=
    Js.or Js.truthyInt (remotePort (socket req))
      (Js.or Js.truthyInt (remotePort (socket req)) Js.null) in
  let r := Enhanced.clickRecordOf (clock w1 (clockReads w1)) (getClientIp req)
             userAgentOf referrerOf (parseUserAgent userAgentOf) geoData port in
  match db w1 !! id with
  | Some l =>
      (Normal (Interstitial (Enhanced.apiBaseOf req) id (destinationUrl l)),
       withDb (tick (tick w1))
         (<[id := incSetAndPush (clock w1 (S (clockReads w1))) r l]> (db w1)))
  | None => (Normal (SendText 404 "Tracking link not found"), tick w1)
  end.
Proof.
  unfold Enhanced.get_track, tryCatch, bind. rewrite resolved.
  unfold newDate, findOne, findOneAndUpdate, id. cbn.
  destruct (db w1 !! params_linkId req) eqn:E; cbn; [| reflexivity].
  rewrite E. reflexivity.
Qed.

End Runs.

(** Creating a link either leaves the store alone (the request was refused)
    or adds one document with no click and no record. *)
Lemma post_links_run (req : Request) (body : CreateBody) (rnd : string)
    (w : World) :
  db (snd (post_links req body rnd w)) = db w \/
  exists l, clicks l = 0 /\ clickRecords l = [] /\
    db w !! linkId l = None /\
    db (snd (post_links req body rnd w)) = <[linkId l := l]> (db w).
Proof.
  unfold post_links, tryCatch, bind, newDate, required, saveNew, throw, ret.
  cbn.
  destruct (b_name body) as [| | n]; cbn; auto.
  destruct (Js.truthyString n); cbn; auto.
  destruct (b_destinationUrl body) as [| | u]; cbn; auto.
  destruct (Js.truthyString u); cbn; auto.
  match goal with
  | |- context [db w !! ?k] => destruct (db w !! k) eqn:E
  end; cbn; auto.
  right. eexists {| linkId := _ |}. cbn. eauto.
Qed.

Lemma delete_link_run (id : string) (w : World) :
  db (snd (delete_link id w)) = delete id (db w).
Proof. reflexivity. Qed.

(** The deferred merge, when the link has a last record. *)
Lemma post_track_update_run (id : string) (body : Payload) (w : World)
    (l : Link) (older : list ClickRecord) (last : ClickRecord) :
  db w !! id = Some l ->
  clickRecords l = (older ++ [last])%list ->
  Enhanced.post_track_update id body w =
  (Normal (SendJson 200 true "Tracking data updated"),
   withDb w
     (<[id := Enhanced.withClickRecords l
                (older ++ [Enhanced.mergePayload body last])]> (db w))).
Proof.
  intros Hl Hrecords.
  unfold Enhanced.post_track_update, tryCatch, bind, findOne, save,
    Enhanced.notFound, ret.
  rewrite Hl, Hrecords. rewrite length_app. cbn [length].
  replace (length older + 1)%nat with (S (length older)) by lia.
  cbn [Nat.eqb].
  replace (S (length older) - 1)%nat with (length older + 0)%nat by lia.
  rewrite alter_app_r. reflexivity.
Qed.

(** The deferred merge, when there is nothing to merge into. *)
Lemma post_track_update_missing (id : string) (body : Payload) (w : World) :
  (db w !! id = None \/ exists l, db w !! id = Some l /\ clickRecords l = []) ->
  Enhanced.post_track_update id body w =
  (Normal (SendJson 404 false "Link or record not found"), w).
Proof.
  unfold Enhanced.post_track_update, tryCatch, bind, findOne,
    Enhanced.notFound, ret.
  intros [-> | (l & -> & Hnone)]; [reflexivity |].
  rewrite Hnone. reflexivity.
Qed.

(** ** The click count and the click records *)

Lemma storeInvariant_empty : storeInvariant ∅.
Proof. intros id l H. rewrite lookup_empty in H. discriminate. Qed.

Lemma storeInvariant_insert (d : gmap string Link) (id : string) (l : Link) :
  storeInvariant d -> countsItsRecords l -> storeInvariant (<[id := l]> d).
Proof.
  intros Hd Hl k l' Hk.
  destruct (decide (id = k)) as [-> | Hne].
  - rewrite lookup_insert_eq in Hk. congruence.
  - rewrite lookup_insert_ne in Hk by assumption. eauto.
Qed.

Lemma storeInvariant_delete (d : gmap string Link) (id : string) :
  storeInvariant d -> storeInvariant (delete id d).
Proof.
  intros Hd k l Hk.
  destruct (decide (id = k)) as [-> | Hne].
  - rewrite lookup_delete_eq in Hk. discriminate.
  - rewrite lookup_delete_ne in Hk by assumption. eauto.
Qed.

Lemma incSetAndPush_counts (now : Date) (r : ClickRecord) (l : Link) :
  countsItsRecords l -> countsItsRecords (incSetAndPush now r l).
Proof.
  unfold countsItsRecords. cbn. intros ->. rewrite length_app. cbn. lia.
Qed.

Create HintDb store.
#[local] Hint Resolve storeInvariant_empty storeInvariant_insert
  storeInvariant_delete incSetAndPush_counts : store.

Lemma last_record (records : list ClickRecord) :
  records = [] \/ exists older last, records = (older ++ [last])%list.
Proof.
  destruct records as [| r records] using rev_ind; [left | right]; eauto.
Qed.

Lemma post_links_preserves (req : Request) (body : CreateBody) (rnd : string)
    (w : World) :
  storeInvariant (db w) ->
  storeInvariant (db (snd (post_links req body rnd w))).
Proof.
  intros Hw.
  destruct (post_links_run req body rnd w) as [-> | (l & Hc & Hr & _ & ->)];
    [assumption |].
  apply storeInvariant_insert; [assumption |].
  unfold countsItsRecords. rewrite Hc, Hr. reflexivity.
Qed.

Lemma records_get_track_preserves (req : Request) (w : World) :
  storeInvariant (db w) -> storeInvariant (db (snd (Records.get_track req w))).
Proof.
  intros Hw.
  destruct (getGeolocation_total (getClientIp req) w)
    as (g & w1 & Hgeo & Hdb & _).
  rewrite (records_get_track_run req w g w1 Hgeo). cbn zeta.
  destruct (db w1 !! params_linkId req) as [l |] eqn:E; cbn; rewrite Hdb.
  - rewrite Hdb in E. eauto with store.
  - assumption.
Qed.

Lemma enhanced_get_track_preserves (req : Request) (w : World) :
  storeInvariant (db w) -> storeInvariant (db (snd (Enhanced.get_track req w))).
Proof.
  intros Hw.
  destruct (getGeolocation_total (getClientIp req) w)
    as (g & w1 & Hgeo & Hdb & _).
  rewrite (enhanced_get_track_run req w g w1 Hgeo). cbn zeta.
  destruct (db w1 !! params_linkId req) as [l |] eqn:E; cbn; rewrite Hdb.
  - rewrite Hdb in E. eauto with store.
  - assumption.
Qed.

Lemma post_track_update_preserves (id : string) (body : Payload) (w : World) :
  storeInvariant (db w) ->
  storeInvariant (db (snd (Enhanced.post_track_update id body w))).
Proof.
  intros Hw.
  destruct (db w !! id) as [l |] eqn:E.
  - destruct (last_record (clickRecords l)) as [Hnone | (older & last & Hlast)].
    + rewrite post_track_update_missing by eauto. assumption.
    + rewrite (post_track_update_run id body w l older last E Hlast). cbn.
      apply storeInvariant_insert; [assumption |].
      specialize (Hw id l E). unfold countsItsRecords in *. cbn.
      rewrite Hw, Hlast, !length_app. reflexivity.
  - rewrite post_track_update_missing by eauto. assumption.
Qed.

Lemma enhanced_preserves (c : Call) (w : World) :
  storeInvariant (db w) -> storeInvariant (db (snd (Enhanced.app c w))).
Proof.
  destruct c as [req body rnd | id | req | id body]; cbn [Enhanced.app].
  - apply post_links_preserves.
  - rewrite delete_link_run. auto with store.
  - apply enhanced_get_track_preserves.
  - apply post_track_update_preserves.
Qed.

Lemma records_preserves (c : Call) (w : World) :
  storeInvariant (db w) -> storeInvariant (db (snd (Records.app c w))).
Proof.
  destruct c as [req body rnd | id | req | id body]; cbn [Records.app].
  - apply post_links_preserves.
  - rewrite delete_link_run. auto with store.
  - apply records_get_track_preserves.
  - cbn. auto.
Qed.

(** C1, as stated, fails on [server.js]: after a link is created and
    resolved once, its click count is 1 and it has no click record. *)
Lemma basic_count_without_records :
  reachable Basic.app basicClicked /\
  (exists l, db basicClicked !! springId = Some l /\
             clicks l = 1 /\ clickRecords l = []) /\
  ~ storeInvariant (db basicClicked).
Proof.
  assert (Hl : exists l, db basicClicked !! springId = Some l /\
                         clicks l = 1 /\ clickRecords l = []).
  { eexists. split; [vm_compute; reflexivity |]. split; reflexivity. }
  split; [| split; [exact Hl |]].
  - unfold basicClicked, createdWorld.
    do 2 apply reach_serve. apply reach_start. reflexivity.
  - destruct Hl as (l & Hl & Hc & Hr). intros Hinv.
    specialize (Hinv springId l Hl). unfold countsItsRecords in Hinv.
    rewrite Hc, Hr in Hinv. discriminate.
Qed.

(** C1 (amended): in the two programs that keep click records (both
    programs of [unnamed/part_000]), every link of a store reached from the
    empty collection by link creations, deletions, click resolutions and
    deferred-enrichment posts has a click count equal to the number of its
    click records. *)
Theorem click_count_matches_records :
  (forall w, reachable Enhanced.app w -> storeInvariant (db w)) /\
  (forall w, reachable Records.app w -> storeInvariant (db w)).
Proof.
  split; intros w Hreach.
  - induction Hreach as [w Hempty | w c _ IH].
    + rewrite Hempty. apply storeInvariant_empty.
    + apply enhanced_preserves, IH.
  - induction Hreach as [w Hempty | w c _ IH].
    + rewrite Hempty. apply storeInvariant_empty.
    + apply records_preserves, IH.
Qed.

Lemma click_count_matches_records_witness :
  reachable Enhanced.app enhancedClicked /\
  storeInvariant (db enhancedClicked).
Proof.
  assert (H : reachable Enhanced.app enhancedClicked).
  { unfold enhancedClicked.
    do 2 apply reach_serve. apply reach_start. reflexivity. }
  split; [exact H |].
  exact (proj1 click_count_matches_records enhancedClicked H).
Defined.

Example enhanced_click_is_recorded :
  (fun l => (clicks l, length (clickRecords l), lastClicked l)) <$>
    (db enhancedClicked !! springId)
  = Some (1, 1%nat, Some 1700000000003).
Proof. vm_compute. reflexivity. Qed.

(** ** Click resolution *)

(** C2, as stated, fails on [server.js]: a successful resolution of an
    existing link answers with the redirect and appends no click record. *)
Lemma basic_click_appends_nothing :
  (exists l, db createdWorld !! springId = Some l /\ clickRecords l = []) /\
  fst (Basic.get_track (browserRequest springId) createdWorld)
  = Normal (Redirect "https://example.org/spring") /\
  (exists l', db basicClicked !! springId = Some l' /\
              clicks l' = 1 /\ clickRecords l' = []).
Proof.
  split; [| split].
  - eexists. split; [vm_compute; reflexivity | reflexivity].
  - vm_compute. reflexivity.
  - eexists. split; [vm_compute; reflexivity |]. split; reflexivity.
Qed.

(** The record the second program of [unnamed/part_000] appends has no
    deferred-enrichment field at all. *)
Example records_click_has_no_sentinel :
  (fun l => cameraPermission <$> clickRecords l) <$>
    (db (snd (Records.get_track (browserRequest springId) createdWorld))
       !! springId)
  = Some [Js.undefined].
Proof. vm_compute. reflexivity. Qed.

(** C2 (amended): for every existing link, one resolution of
    [GET /track/:linkId] succeeds, increments the click count by exactly 1
    and sets the last-clicked timestamp in all three programs; the two
    programs of [unnamed/part_000] append exactly one click record, which in
    the program with the interstitial page has its deferred-enrichment
    fields at their sentinel defaults (the user coordinates unset, the port
    number that of the connection, or [null] when there is none) and in the
    program that redirects directly has none of the deferred-enrichment
    fields; [server.js] stores no record. *)
Theorem get_track_counts_one_click (req : Request) (w : World) (l : Link) :
  db w !! params_linkId req = Some l ->
  (exists l' r,
     fst (Enhanced.get_track req w)
     = Normal (Interstitial (Enhanced.apiBaseOf req) (params_linkId req)
                 (destinationUrl l)) /\
     db (snd (Enhanced.get_track req w)) = <[params_linkId req := l']> (db w) /\
     countedOnce w l l' /\
     clickRecords l' = (clickRecords l ++ [r])%list /\
     atSentinelDefaults r /\
     portKept (remotePort (socket req)) (portNumber r)) /\
  (exists l' r,
     fst (Records.get_track req w) = Normal (Redirect (destinationUrl l)) /\
     db (snd (Records.get_track req w)) = <[params_linkId req := l']> (db w) /\
     countedOnce w l l' /\
     clickRecords l' = (clickRecords l ++ [r])%list /\
     noDeferredFields r) /\
  (exists l',
     fst (Basic.get_track req w) = Normal (Redirect (destinationUrl l)) /\
     db (snd (Basic.get_track req w)) = <[params_linkId req := l']> (db w) /\
     countedOnce w l l' /\
     clickRecords l' = clickRecords l).
Proof.
  intros Hl.
  destruct (getGeolocation_total (getClientIp req) w)
    as (g & w1 & Hgeo & Hdb & _ & Hclock & Hreads).
  split; [| split].
  - rewrite (enhanced_get_track_run req w g w1 Hgeo). cbn zeta.
    rewrite Hdb, Hl. cbn [fst snd db withDb].
    do 2 eexists. split; [reflexivity |]. split; [reflexivity |].
    split; [| split; [reflexivity | split; [repeat split |]]].
    + unfold countedOnce. cbn. repeat split.
      exists (S (clockReads w)). rewrite Hclock, Hreads.
      split; [lia | reflexivity].
    + cbn. unfold portKept, Js.or.
      destruct (Js.truthy Js.truthyInt (remotePort (socket req)));
        split; intros; congruence.
  - rewrite (records_get_track_run req w g w1 Hgeo). cbn zeta.
    rewrite Hdb, Hl. cbn [fst snd db withDb].
    do 2 eexists. split; [reflexivity |]. split; [reflexivity |].
    split; [| split; [reflexivity | repeat split]].
    unfold countedOnce. cbn. repeat split.
    exists (S (clockReads w)). rewrite Hclock, Hreads. split; [lia | reflexivity].
  - rewrite basic_get_track_run, Hl. cbn [fst snd db withDb].
    eexists. split; [reflexivity |]. split; [reflexivity |].
    split; [| reflexivity].
    unfold countedOnce. cbn. repeat split.
    exists (clockReads w). split; [lia | reflexivity].
Qed.

Lemma get_track_counts_one_click_witness :
  exists l,
    db enhancedClicked !! params_linkId (browserRequest springId) = Some l /\
    clicks l = 1 /\ length (clickRecords l) = 1%nat /\
    (exists l' r,
       db (snd (Enhanced.get_track (browserRequest springId) enhancedClicked))
       = <[springId := l']> (db enhancedClicked) /\
       clicks l' = 2 /\ clickRecords l' = (clickRecords l ++ [r])%list /\
       atSentinelDefaults r /\ portNumber r = Js.val 51234) /\
    (exists l' r,
       db (snd (Records.get_track (browserRequest springId) enhancedClicked))
       = <[springId := l']> (db enhancedClicked) /\
       clicks l' = 2 /\ clickRecords l' = (clickRecords l ++ [r])%list /\
       noDeferredFields r) /\
    (exists l',
       db (snd (Basic.get_track (browserRequest springId) enhancedClicked))
       = <[springId := l']> (db enhancedClicked) /\
       clicks l' = 2 /\ clickRecords l' = clickRecords l).
Proof.
  assert (H : exists l,
            db enhancedClicked !! params_linkId (browserRequest springId)
            = Some l /\ clicks l = 1 /\ length (clickRecords l) = 1%nat).
  { eexists. split; [vm_compute; reflexivity |]. split; reflexivity. }
  destruct H as (l & Hl & Hclicks & Hlength).
  exists l. split; [exact Hl |]. split; [exact Hclicks |].
  split; [exact Hlength |].
  destruct (get_track_counts_one_click
              (browserRequest springId) enhancedClicked l Hl)
    as ((l1 & r1 & _ & Hdb1 & Hcount1 & Hrecords1 & Hsentinel & Hport)
        & (l2 & r2 & _ & Hdb2 & Hcount2 & Hrecords2 & Hnone)
        & (l3 & _ & Hdb3 & Hcount3 & Hrecords3)).
  pose proof (proj1 Hcount1) as Hc1. pose proof (proj1 Hcount2) as Hc2.
  pose proof (proj1 Hcount3) as Hc3. rewrite Hclicks in Hc1, Hc2, Hc3.
  split; [| split].
  - exists l1, r1. split; [exact Hdb1 |]. split; [exact Hc1 |].
    split; [exact Hrecords1 |]. split; [exact Hsentinel |].
    exact (proj1 Hport eq_refl).
  - exists l2, r2. split; [exact Hdb2 |]. split; [exact Hc2 |].
    split; [exact Hrecords2 | exact Hnone].
  - exists l3. split; [exact Hdb3 |]. split; [exact Hc3 | exact Hrecords3].
Defined.

(** C7: resolving [GET /track/:linkId] for an identifier no link has answers
    404 "Tracking link not found" and leaves the store as it was, in each of
    the three programs. *)
Theorem get_track_unknown_link (req : Request) (w : World) :
  db w !! params_linkId req = None ->
  (fst (Enhanced.get_track req w)
   = Normal (SendText 404 "Tracking link not found") /\
   db (snd (Enhanced.get_track req w)) = db w) /\
  (fst (Records.get_track req w)
   = Normal (SendText 404 "Tracking link not found") /\
   db (snd (Records.get_track req w)) = db w) /\
  (fst (Basic.get_track req w)
   = Normal (SendText 404 "Tracking link not found") /\
   db (snd (Basic.get_track req w)) = db w).
Proof.
  intros Hnone.
  destruct (getGeolocation_total (getClientIp req) w)
    as (g & w1 & Hgeo & Hdb & _).
  split; [| split].
  - rewrite (enhanced_get_track_run req w g w1 Hgeo). cbn zeta.
    rewrite Hdb, Hnone. cbn. split; [reflexivity | exact Hdb].
  - rewrite (records_get_track_run req w g w1 Hgeo). cbn zeta.
    rewrite Hdb, Hnone. cbn. split; [reflexivity | exact Hdb].
  - rewrite basic_get_track_run, Hnone. cbn. split; reflexivity.
Qed.

Lemma get_track_unknown_link_witness :
  db createdWorld !! params_linkId (browserRequest "link_0_nobody") = None /\
  fst (Enhanced.get_track (browserRequest "link_0_nobody") createdWorld)
  = Normal (SendText 404 "Tracking link not found") /\
  db (snd (Enhanced.get_track (browserRequest "link_0_nobody") createdWorld))
  = db createdWorld.
Proof.
  assert (H : db createdWorld !! params_linkId (browserRequest "link_0_nobody")
              = None) by (vm_compute; reflexivity).
  split; [exact H |].
  exact (proj1 (get_track_unknown_link
                  (browserRequest "link_0_nobody") createdWorld H)).
Defined.

(** ** The deferred enrichment merger *)

Lemma assignIfDefined_merged {A} (x old : Js.value A) :
  mergedIfPresent x old (Enhanced.assignIfDefined x old).
Proof. destruct x; split; cbn; congruence. Qed.

Lemma assignIfNotNull_merged {A} (x old : Js.value A) :
  mergedIfNotNull x old (Enhanced.assignIfNotNull x old).
Proof.
  destruct x; split; cbn; try congruence; intros [H | H]; congruence.
Qed.

(** C3, as stated, fails: [userLatitude: null] is present in the payload
    (it is not [undefined]) and yet the last record keeps its latitude. *)
Lemma post_track_update_null_counterexample :
  p_userLatitude nullLatitudePayload <> Js.undefined /\
  (userLatitude <$> (db enrichedWorld !! springId ≫= fun l =>
                       last (clickRecords l)))
  = Some (Js.val 40.5%float) /\
  (userLatitude <$>
     (db (snd (Enhanced.post_track_update springId nullLatitudePayload
                 enrichedWorld)) !! springId ≫= fun l =>
        last (clickRecords l)))
  = Some (Js.val 40.5%float) /\
  ~ mergedIfPresent (p_userLatitude nullLatitudePayload)
      (Js.val 40.5%float) (Js.val 40.5%float).
Proof.
  split; [discriminate |].
  split; [vm_compute; reflexivity |].
  split; [vm_compute; reflexivity |].
  intros [_ H]. specialize (H ltac:(discriminate)). discriminate.
Qed.

(** C3 (amended): for every link with at least one click record and every
    payload whose fields, where present, have the types of the schema (a
    string or [null] for the six text fields, a number or [null] for the
    two coordinates), the post succeeds and changes the last click record
    only: there it overwrites cameraPermission, locationPermission,
    screenResolution, language, timezone and connectionType exactly when
    the payload has them (any value but [undefined]), and userLatitude and
    userLongitude exactly when the payload has them and they are not
    [null]; the other fields of that record, all earlier records, the
    link's other fields and all other links are left unchanged. *)
Theorem post_track_update_frame (id : string) (body : Payload) (w : World)
    (l : Link) (older : list ClickRecord) (last : ClickRecord) :
  db w !! id = Some l ->
  clickRecords l = (older ++ [last])%list ->
  fst (Enhanced.post_track_update id body w)
  = Normal (SendJson 200 true "Tracking data updated") /\
  exists l' last',
    db (snd (Enhanced.post_track_update id body w)) = <[id := l']> (db w) /\
    sameLinkFields l l' /\
    clickRecords l' = (older ++ [last'])%list /\
    sameClick last last' /\
    mergedIfPresent (p_cameraPermission body)
      (cameraPermission last) (cameraPermission last') /\
    mergedIfPresent (p_locationPermission body)
      (locationPermission last) (locationPermission last') /\
    mergedIfNotNull (p_userLatitude body)
      (userLatitude last) (userLatitude last') /\
    mergedIfNotNull (p_userLongitude body)
      (userLongitude last) (userLongitude last') /\
    mergedIfPresent (p_screenResolution body)
      (screenResolution last) (screenResolution last') /\
    mergedIfPresent (p_language body) (language last) (language last') /\
    mergedIfPresent (p_timezone body) (timezone last) (timezone last') /\
    mergedIfPresent (p_connectionType body)
      (connectionType last) (connectionType last').
Proof.
  intros Hl Hrecords.
  rewrite (post_track_update_run id body w l older last Hl Hrecords).
  split; [reflexivity |].
  exists (Enhanced.withClickRecords l
            (older ++ [Enhanced.mergePayload body last])),
    (Enhanced.mergePayload body last).
  split; [reflexivity |].
  split; [repeat split |]. split; [reflexivity |].
  split; [repeat split |].
  cbn [Enhanced.mergePayload cameraPermission locationPermission userLatitude
         userLongitude screenResolution language timezone connectionType].
  repeat apply conj;
    first [apply assignIfDefined_merged | apply assignIfNotNull_merged].
Qed.

Lemma post_track_update_frame_witness :
  exists l first last,
    db twiceClicked !! springId = Some l /\
    clickRecords l = ([first] ++ [last])%list /\
    fst (Enhanced.post_track_update springId partialPayload twiceClicked)
    = Normal (SendJson 200 true "Tracking data updated") /\
    exists l' last',
      db (snd (Enhanced.post_track_update springId partialPayload
                 twiceClicked)) = <[springId := l']> (db twiceClicked) /\
      clickRecords l' = ([first] ++ [last'])%list /\
      clicks l' = clicks l /\ name l' = name l /\
      destinationUrl l' = destinationUrl l /\
      cameraPermission last' = Js.val "granted" /\
      userLatitude last' = Js.val 40.5%float /\
      locationPermission last' = locationPermission last /\
      userLongitude last' = userLongitude last /\
      screenResolution last' = screenResolution last /\
      language last' = language last /\
      timezone last' = timezone last /\
      connectionType last' = connectionType last /\
      ipAddress last' = ipAddress last /\ timestamp last' = timestamp last.
Proof.
  assert (H : exists l first last,
            db twiceClicked !! springId = Some l /\
            clickRecords l = ([first] ++ [last])%list).
  { do 3 eexists. split; [vm_compute; reflexivity | reflexivity]. }
  destruct H as (l & first & last & Hl & Hr).
  exists l, first, last. split; [exact Hl |]. split; [exact Hr |].
  destruct (post_track_update_frame springId partialPayload
              twiceClicked l [first] last Hl Hr)
    as (Hok & l' & last' & Hdb & Hlink & Hrecords & Hclick
        & Hcam & Hloc & Hlat & Hlon & Hscreen & Hlang & Htz & Hconn).
  split; [exact Hok |].
  exists l', last'. split; [exact Hdb |]. split; [exact Hrecords |].
  destruct Hlink as (_ & Hname & Hdest & Hclicks & _).
  split; [exact Hclicks |]. split; [exact Hname |]. split; [exact Hdest |].
  split; [apply (proj2 Hcam); discriminate |].
  split; [exact (proj2 Hlat _ eq_refl) |].
  split; [exact (proj1 Hloc eq_refl) |].
  split; [exact (proj1 Hlon (or_intror eq_refl)) |].
  split; [exact (proj1 Hscreen eq_refl) |].
  split; [exact (proj1 Hlang eq_refl) |].
  split; [exact (proj1 Htz eq_refl) |].
  split; [exact (proj1 Hconn eq_refl) |].
  destruct Hclick as (Hstamp & Hip & _). split; [exact Hip | exact Hstamp].
Defined.

(** C8: [POST /api/track-update/:linkId] answers 404 if and only if the
    link is absent or has no click record, and then the store (the whole
    world) is left as it was. *)
Theorem post_track_update_not_found (id : string) (body : Payload)
    (w : World) :
  exists r,
    fst (Enhanced.post_track_update id body w) = Normal r /\
    (statusOf r = 404 <->
     (db w !! id = None \/
      exists l, db w !! id = Some l /\ clickRecords l = [])) /\
    (statusOf r = 404 -> snd (Enhanced.post_track_update id body w) = w).
Proof.
  destruct (db w !! id) as [l |] eqn:E.
  - destruct (last_record (clickRecords l)) as [Hnone | (older & last & Hlast)].
    + rewrite post_track_update_missing by eauto.
      eexists. split; [reflexivity |]. cbn. split; [| reflexivity].
      split; [eauto | reflexivity].
    + rewrite (post_track_update_run id body w l older last E Hlast).
      eexists. split; [reflexivity |]. cbn. split; [| discriminate].
      split; [discriminate |].
      intros [Habsent | (l0 & Hl0 & Hempty)]; [discriminate |].
      injection Hl0 as <-. rewrite Hlast in Hempty.
      destruct older; discriminate.
  - rewrite post_track_update_missing by eauto.
    eexists. split; [reflexivity |]. cbn. split; [| reflexivity].
    split; [eauto | reflexivity].
Qed.

Lemma post_track_update_not_found_witness :
  exists r,
    fst (Enhanced.post_track_update springId grantedPayload createdWorld)
    = Normal r /\
    statusOf r = 404 /\
    snd (Enhanced.post_track_update springId grantedPayload createdWorld)
    = createdWorld.
Proof.
  destruct (post_track_update_not_found springId grantedPayload createdWorld)
    as (r & Hr & Hiff & Hsame).
  assert (H : statusOf r = 404).
  { apply Hiff. right. exists springLink.
    split; [vm_compute; reflexivity | reflexivity]. }
  exists r. split; [exact Hr |]. split; [exact H | exact (Hsame H)].
Defined.

(** C9: a payload whose userLatitude (or userLongitude) is [null] leaves
    that coordinate of the last record as it was, whereas a [null] in any of
    the six other payload fields is written into the last record. *)
Theorem post_track_update_null_fields (id : string) (body : Payload)
    (w : World) (l : Link) (older : list ClickRecord) (last : ClickRecord) :
  db w !! id = Some l ->
  clickRecords l = (older ++ [last])%list ->
  exists l' last',
    db (snd (Enhanced.post_track_update id body w)) !! id = Some l' /\
    clickRecords l' = (older ++ [last'])%list /\
    (p_userLatitude body = Js.null -> userLatitude last' = userLatitude last) /\
    (p_userLongitude body = Js.null ->
     userLongitude last' = userLongitude last) /\
    (p_cameraPermission body = Js.null -> cameraPermission last' = Js.null) /\
    (p_locationPermission body = Js.null ->
     locationPermission last' = Js.null) /\
    (p_screenResolution body = Js.null -> screenResolution last' = Js.null) /\
    (p_language body = Js.null -> language last' = Js.null) /\
    (p_timezone body = Js.null -> timezone last' = Js.null) /\
    (p_connectionType body = Js.null -> connectionType last' = Js.null).
Proof.
  intros Hl Hrecords.
  rewrite (post_track_update_run id body w l older last Hl Hrecords).
  do 2 eexists. cbn [snd db withDb].
  split; [apply lookup_insert_eq |]. split; [reflexivity |].
  cbn. repeat apply conj; intros ->; reflexivity.
Qed.

Lemma post_track_update_null_fields_witness :
  exists l r, db enrichedWorld !! springId = Some l /\
    clickRecords l = ([] ++ [r])%list /\
    exists l' r',
      db (snd (Enhanced.post_track_update springId allNullPayload
                 enrichedWorld)) !! springId = Some l' /\
      clickRecords l' = ([] ++ [r'])%list /\
      userLatitude r' = userLatitude r /\
      cameraPermission r' = Js.null.
Proof.
  assert (H : exists l r, db enrichedWorld !! springId = Some l /\
                          clickRecords l = ([] ++ [r])%list).
  { do 2 eexists. split; [vm_compute; reflexivity | reflexivity]. }
  destruct H as (l & r & Hl & Hr).
  exists l, r. split; [exact Hl |]. split; [exact Hr |].
  destruct (post_track_update_null_fields springId allNullPayload
              enrichedWorld l [] r Hl Hr)
    as (l' & r' & Hl' & Hr' & Hlat & _ & Hcam & _).
  exists l', r'. split; [exact Hl' |]. split; [exact Hr' |].
  split; [exact (Hlat eq_refl) | exact (Hcam eq_refl)].
Defined.

Example null_payload_on_enriched_record :
  (fun r => (userLatitude r, userLongitude r, cameraPermission r,
             timezone r)) <$>
    (db (snd (Enhanced.post_track_update springId allNullPayload
                enrichedWorld)) !! springId ≫= fun l => last (clickRecords l))
  = Some (Js.val 40.5%float, Js.val (-3.75)%float, Js.null, Js.null).
Proof. vm_compute. reflexivity. Qed.

(** A click from an address that ip-api.com places on the equator is stored
    without a latitude. *)
Example equator_click_is_stored_without_latitude :
  (fun r => (latitude r, longitude r, country r)) <$>
    (db (snd (Enhanced.get_track (browserRequest springId)
                (withDb equatorWorld (db createdWorld)))) !! springId
       ≫= fun l => last (clickRecords l))
  = Some (Js.null, Js.val (-78.5)%float, "Ecuador").
Proof. vm_compute. reflexivity. Qed.

(** * Further properties of the code *)

(** ** The string methods *)

Lemma truthyString_nonempty (s : string) :
  Js.truthyString s = true <-> s <> "".
Proof.
  unfold Js.truthyString. destruct (String.eqb_spec s ""); cbn; split;
    congruence.
Qed.

Lemma orString_nonempty (v : Js.value string) (d : string) :
  d <> "" -> Js.orString v d <> "".
Proof.
  intros Hd. destruct v as [| | s]; cbn; try assumption.
  destruct (Js.truthyString s) eqn:E; [| assumption].
  now apply truthyString_nonempty.
Qed.

Lemma includes_cons (c : ascii) (s pat : string) :
  Js.includes (String c s) pat = String.prefix pat (String c s) || Js.includes s pat.
Proof. reflexivity. Qed.

Lemma splitFirst_no_separator (sep : ascii) (s : string) :
  Js.includes (Js.splitFirst sep s) (String sep "") = false.
Proof.
  induction s as [| c s IH]; [reflexivity |].
  cbn [Js.splitFirst]. destruct (Ascii.eqb_spec c sep) as [-> | Hne];
    [reflexivity |].
  rewrite includes_cons, IH. cbn.
  destruct (ascii_dec sep c); [congruence | reflexivity].
Qed.

Lemma replace_absent (s pat rep : string) :
  Js.includes s pat = false -> Js.replace s pat rep = s.
Proof.
  induction s as [| c s IH]; cbn [Js.includes Js.replace]; intros H.
  - apply orb_false_iff in H as [-> _]. reflexivity.
  - apply orb_false_iff in H as [-> H]. now rewrite IH.
Qed.

Lemma lowerAscii_idempotent (c : ascii) :
  Js.lowerAscii (Js.lowerAscii c) = Js.lowerAscii c.
Proof. destruct c as [[] [] [] [] [] [] [] []]; reflexivity. Qed.

Lemma toLowerCase_idempotent (s : string) :
  Js.toLowerCase (Js.toLowerCase s) = Js.toLowerCase s.
Proof.
  induction s as [| c s IH]; [reflexivity |].
  cbn. now rewrite lowerAscii_idempotent, IH.
Qed.

(** ** The client address *)

(** X1: [getClientIp] never returns the empty string: whatever the request
    carries, the address recorded is a non-empty string, "Unknown" at
    worst. *)
Theorem getClientIp_never_empty (req : Request) : getClientIp req <> "".
Proof. unfold getClientIp. now apply orString_nonempty. Qed.

(** X2: when the forwarded-for header has a non-empty first entry, the
    client address is that entry, cut at the first comma and not trimmed,
    whatever the other headers and the socket say. *)
Theorem getClientIp_forwarded_first (req : Request) (s : string) :
  headers req !! "x-forwarded-for" = Some s ->
  Js.splitFirst "," s <> "" ->
  getClientIp req = Js.splitFirst "," s /\
  Js.includes (getClientIp req) "," = false.
Proof.
  intros Hs Hne.
  assert (H : getClientIp req = Js.splitFirst "," s).
  { unfold getClientIp, header. rewrite Hs. cbn [Js.ofOption].
    apply truthyString_nonempty in Hne.
    unfold Js.or at 1. cbn [Js.truthy]. rewrite Hne.
    cbn [Js.orString]. now rewrite Hne. }
  split; [exact H |]. rewrite H. apply splitFirst_no_separator.
Qed.

Lemma getClientIp_forwarded_first_witness :
  headers (browserRequest "x") !! "x-forwarded-for"
  = Some "203.0.113.7, 10.0.0.2" /\
  getClientIp (browserRequest "x") = "203.0.113.7".
Proof.
  assert (H : headers (browserRequest "x") !! "x-forwarded-for"
              = Some "203.0.113.7, 10.0.0.2") by (vm_compute; reflexivity).
  split; [exact H |].
  refine (proj1 (getClientIp_forwarded_first (browserRequest "x") _ H _)).
  discriminate.
Defined.

(** X3: when the forwarded-for header is missing or its first entry is
    empty, the address is the x-real-ip header if that is not empty, else
    the socket's remote address if that is not empty, else "Unknown". *)
Theorem getClientIp_fallback (req : Request) :
  noForwardedEntry req ->
  (forall r, headers req !! "x-real-ip" = Some r -> r <> "" ->
             getClientIp req = r) /\
  (forall a, noHeader req "x-real-ip" ->
             remoteAddress (socket req) = Js.val a -> a <> "" ->
             getClientIp req = a) /\
  (noHeader req "x-real-ip" ->
   Js.truthy Js.truthyString (remoteAddress (socket req)) = false ->
   getClientIp req = "Unknown").
Proof.
  intros Hfwd.
  assert (Hskip : getClientIp req =
            Js.orString
              (Js.or Js.truthyString (header req "x-real-ip")
                 (Js.or Js.truthyString (remoteAddress (socket req))
                    (remoteAddress (socket req)))) "Unknown").
  { unfold getClientIp, header.
    destruct Hfwd as [-> | (s & -> & Hempty)]; [reflexivity |].
    cbn [Js.ofOption]. rewrite Hempty. reflexivity. }
  rewrite Hskip. unfold header. repeat apply conj.
  - intros r -> Hr. apply truthyString_nonempty in Hr.
    unfold Js.or at 1. cbn. rewrite Hr. cbn. now rewrite Hr.
  - intros a Hreal -> Ha. apply truthyString_nonempty in Ha.
    destruct Hreal as [-> | ->]; unfold Js.or; cbn; rewrite Ha; cbn;
      now rewrite Ha.
  - intros Hreal Hsock.
    destruct Hreal as [-> | ->]; unfold Js.or; cbn; rewrite Hsock;
      destruct (remoteAddress (socket req)) as [| | a]; cbn in *;
      rewrite ?Hsock; reflexivity.
Qed.

Lemma getClientIp_fallback_witness :
  noForwardedEntry proxiedRequest /\
  getClientIp proxiedRequest = "198.51.100.9".
Proof.
  assert (H : noForwardedEntry proxiedRequest).
  { right. exists ", 10.0.0.2". split; [vm_compute; reflexivity | reflexivity]. }
  split; [exact H |].
  refine (proj1 (getClientIp_fallback proxiedRequest H) _ _ _).
  - vm_compute. reflexivity.
  - discriminate.
Defined.

(** ** More on the resolver *)

Lemma getGeolocation_by_cleanIp (ip ip' : string) (w : World) :
  cleanIpOf ip = cleanIpOf ip' -> getGeolocation ip w = getGeolocation ip' w.
Proof. unfold getGeolocation. now intros ->. Qed.

(** X4: an IPv6-mapped address is resolved as the IPv4 address it maps:
    for an address that does not contain "::ffff:", prefixing it with
    "::ffff:" changes neither the result nor the request sent. *)
Theorem getGeolocation_mapped_address (ip : string) (w : World) :
  Js.includes ip "::ffff:" = false ->
  cleanIpOf ("::ffff:" +:+ ip) = ip /\
  cleanIpOf ip = ip /\
  getGeolocation ("::ffff:" +:+ ip) w = getGeolocation ip w.
Proof.
  intros Habsent.
  assert (H1 : cleanIpOf ("::ffff:" +:+ ip) = ip)
    by (destruct ip; reflexivity).
  assert (H2 : cleanIpOf ip = ip) by now apply replace_absent.
  repeat split; try assumption.
  apply getGeolocation_by_cleanIp. congruence.
Qed.

Lemma getGeolocation_mapped_address_witness :
  Js.includes "186.4.0.1" "::ffff:" = false /\
  getGeolocation "::ffff:186.4.0.1" equatorWorld
  = getGeolocation "186.4.0.1" equatorWorld.
Proof.
  split; [reflexivity |].
  refine (proj2 (proj2
            (getGeolocation_mapped_address "186.4.0.1" equatorWorld _))).
  reflexivity.
Defined.

(** X5: the resolver makes a single attempt: it sends no request for a
    local address and exactly one request, to
    "http://ip-api.com/json/" followed by the cleaned address, for any
    other, whatever the answer is; it touches neither the store nor the
    clock. *)
Theorem getGeolocation_single_request (ip : string) (w : World) :
  fetchLog (snd (getGeolocation ip w)) =
  (fetchLog w ++
   if isLocal (cleanIpOf ip) then [] else [lookupUrl (cleanIpOf ip)])%list /\
  db (snd (getGeolocation ip w)) = db w /\
  clockReads (snd (getGeolocation ip w)) = clockReads w.
Proof.
  unfold getGeolocation, bind, tryCatch, fetch.
  destruct (isLocal (cleanIpOf ip)).
  - cbn. now rewrite app_nil_r.
  - destruct (network w (lookupUrl (cleanIpOf ip))) as [| [| | data]];
      cbn; auto.
    destruct (isSuccess (d_status data)); cbn; auto.
Qed.

Lemma orString_unknown_nonempty (v : Js.value string) :
  Js.orString v "Unknown" <> "".
Proof. now apply orString_nonempty. Qed.

Lemma or_null_storable (v : Js.value float) :
  storableCoordinate (Js.or Js.truthyNumber v Js.null).
Proof.
  unfold Js.or, storableCoordinate.
  destruct v as [| | x]; cbn; auto.
  destruct (Js.truthyNumber x) eqn:E; eauto.
Qed.

(** X6: for every answer of ip-api.com whose fields, where present, have
    the documented types (strings for status, country, city and regionName,
    numbers for lat and lon), and for every failed lookup, the resolver's
    result can be stored as it is: country, city and region are never
    empty, and each coordinate is either [null] or a number that is neither
    zero nor NaN; it is never [undefined]. *)
Theorem getGeolocation_storable (ip : string) (w : World) :
  exists g, fst (getGeolocation ip w) = Normal g /\ storableGeo g.
Proof.
  assert (Hu : storableGeo unknownGeo).
  { unfold storableGeo, storableCoordinate. cbn. repeat split; auto;
      discriminate. }
  unfold getGeolocation, bind, tryCatch, fetch.
  destruct (isLocal (cleanIpOf ip)); [cbn; eauto |].
  destruct (network w (lookupUrl (cleanIpOf ip))) as [| [| | data]];
    cbn; eauto.
  destruct (isSuccess (d_status data)); cbn; eauto.
  eexists. split; [reflexivity |].
  unfold storableGeo. cbn.
  repeat split; auto using orString_unknown_nonempty, or_null_storable.
Qed.

(** ** More on the classifier *)

(** Decides every test that occurs in the goal and closes each case. *)
Ltac settle_tests :=
  repeat match goal with
         | |- context [Js.includes ?s ?pat] => destruct (Js.includes s pat)
         end;
  cbn; intros; try discriminate; try congruence; repeat split; auto.

(** X7: the operating-system tests shadow one another: a user-agent that
    mentions "linux" (and neither "windows" nor "mac") is Linux even when it
    mentions "android"; the answer is Android only when none of "windows",
    "mac" and "linux" occurs, and iOS only when none of "windows", "mac",
    "linux" and "android" occurs. *)
Theorem parseUserAgent_os_shadowing (ua : string) :
  (mentions ua "linux" = true -> mentions ua "windows" = false ->
   mentions ua "mac" = false -> cl_os (parseUserAgent ua) = "Linux") /\
  (cl_os (parseUserAgent ua) = "Android" ->
   mentions ua "android" = true /\ mentions ua "windows" = false /\
   mentions ua "mac" = false /\ mentions ua "linux" = false) /\
  (cl_os (parseUserAgent ua) = "iOS" ->
   mentions ua "windows" = false /\ mentions ua "mac" = false /\
   mentions ua "linux" = false /\ mentions ua "android" = false).
Proof.
  unfold mentions, parseUserAgent. cbn [cl_os].
  repeat apply conj; settle_tests.
Qed.

Lemma parseUserAgent_os_shadowing_witness :
  mentions androidPhone "android" = true /\
  mentions androidPhone "linux" = true /\
  cl_os (parseUserAgent androidPhone) = "Linux".
Proof.
  split; [reflexivity |]. split; [reflexivity |].
  apply (proj1 (parseUserAgent_os_shadowing androidPhone)); reflexivity.
Defined.

(** X8: the answer is Opera only for a user-agent that mentions none of
    "chrome", "safari", "firefox" and "edg"; one that mentions "chrome" and
    not "edg" is Chrome even when it mentions "opr" or "opera". *)
Theorem parseUserAgent_opera_shadowing (ua : string) :
  (cl_browser (parseUserAgent ua) = "Opera" ->
   mentions ua "chrome" = false /\ mentions ua "safari" = false /\
   mentions ua "firefox" = false /\ mentions ua "edg" = false) /\
  (mentions ua "chrome" = true -> mentions ua "edg" = false ->
   cl_browser (parseUserAgent ua) = "Chrome").
Proof.
  unfold mentions, parseUserAgent. cbn [cl_browser].
  repeat apply conj; settle_tests.
Qed.

Lemma parseUserAgent_opera_shadowing_witness :
  mentions operaDesktop "opr" = true /\
  cl_browser (parseUserAgent operaDesktop) = "Chrome".
Proof.
  split; [reflexivity |].
  apply (proj2 (parseUserAgent_opera_shadowing operaDesktop)); reflexivity.
Defined.

(** X9: the device is Tablet only for a user-agent that does not mention
    "mobile": one that mentions "mobile" is Mobile even when it mentions
    "ipad" or "tablet", and one that mentions none of the three is
    Desktop. *)
Theorem parseUserAgent_device (ua : string) :
  (mentions ua "mobile" = true -> cl_device (parseUserAgent ua) = "Mobile") /\
  (cl_device (parseUserAgent ua) = "Tablet" ->
   mentions ua "mobile" = false /\
   (mentions ua "tablet" = true \/ mentions ua "ipad" = true)) /\
  (mentions ua "mobile" = false -> mentions ua "tablet" = false ->
   mentions ua "ipad" = false -> cl_device (parseUserAgent ua) = "Desktop").
Proof.
  unfold mentions, parseUserAgent. cbn [cl_device].
  repeat apply conj; settle_tests.
Qed.

Lemma parseUserAgent_device_witness :
  mentions "Mozilla/5.0 (iPad; CPU OS 16_0 like Mac OS X) Mobile/15E148" "ipad"
  = true /\
  cl_device
    (parseUserAgent "Mozilla/5.0 (iPad; CPU OS 16_0 like Mac OS X) Mobile/15E148")
  = "Mobile".
Proof.
  split; [reflexivity |].
  apply (proj1 (parseUserAgent_device
                  "Mozilla/5.0 (iPad; CPU OS 16_0 like Mac OS X) Mobile/15E148"));
    reflexivity.
Defined.

(** X10: the classification ignores the case of ASCII letters: two
    user-agents with the same lower-case form get the same triple, and in
    particular a user-agent and its lower-case form do. *)
Theorem parseUserAgent_ignores_case (ua ua' : string) :
  (Js.toLowerCase ua = Js.toLowerCase ua' ->
   parseUserAgent ua = parseUserAgent ua') /\
  parseUserAgent (Js.toLowerCase ua) = parseUserAgent ua.
Proof.
  split.
  - unfold parseUserAgent. now intros ->.
  - unfold parseUserAgent. now rewrite toLowerCase_idempotent.
Qed.

Lemma parseUserAgent_ignores_case_witness :
  Js.toLowerCase "MOZILLA/5.0 FIREFOX/121.0" =
  Js.toLowerCase "Mozilla/5.0 Firefox/121.0" /\
  parseUserAgent "MOZILLA/5.0 FIREFOX/121.0"
  = parseUserAgent "Mozilla/5.0 Firefox/121.0".
Proof.
  split; [reflexivity |].
  apply (proj1 (parseUserAgent_ignores_case "MOZILLA/5.0 FIREFOX/121.0"
                  "Mozilla/5.0 Firefox/121.0")).
  reflexivity.
Defined.

(** ** Creating and deleting links *)

Lemma post_links_accepts (req : Request) (body : CreateBody) (rnd : string)
    (w : World) (n u : string) :
  b_name body = Js.val n -> n <> "" ->
  b_destinationUrl body = Js.val u -> u <> "" ->
  db w !! nextLinkId w rnd = None ->
  post_links req body rnd w =
  let l := {| linkId := nextLinkId w rnd; name := n; destinationUrl := u;
              clicks := 0; createdAt := clock w (S (clockReads w));
              lastClicked := None; clickRecords := [] |} in
  (Normal (CreatedLink l (trackingUrlOf req (nextLinkId w rnd))),
   withDb (tick (tick w)) (<[nextLinkId w rnd := l]> (db w))).
Proof.
  intros Hn Hne Hu Hue Hfresh.
  apply truthyString_nonempty in Hne, Hue.
  unfold post_links, tryCatch, bind, newDate, required, saveNew, ret.
  cbn. rewrite Hn, Hu, Hne, Hue. cbn.
  unfold nextLinkId in Hfresh. rewrite Hfresh. reflexivity.
Qed.

(** X11: a link that was just created resolves: when the name and the
    destination URL are not empty and the generated identifier is free, the
    creation stores a link with no click, and a resolution of the new
    identifier right after it counts one click and is answered for the
    destination URL that was given: by the interstitial page built with the
    new identifier and that URL in the program that serves the page, and by
    a redirect to that URL in [server.js]. *)
Theorem create_then_resolve (req req' : Request) (body : CreateBody)
    (rnd : string) (w : World) (n u : string) :
  b_name body = Js.val n -> n <> "" ->
  b_destinationUrl body = Js.val u -> u <> "" ->
  db w !! nextLinkId w rnd = None ->
  params_linkId req' = nextLinkId w rnd ->
  let w' := snd (post_links req body rnd w) in
  (exists l, db w' !! nextLinkId w rnd = Some l /\
             clicks l = 0 /\ clickRecords l = [] /\ lastClicked l = None /\
             name l = n /\ destinationUrl l = u) /\
  (fst (Enhanced.get_track req' w')
   = Normal (Interstitial (Enhanced.apiBaseOf req') (nextLinkId w rnd) u) /\
   exists l, db (snd (Enhanced.get_track req' w')) !! nextLinkId w rnd = Some l /\
             clicks l = 1 /\ length (clickRecords l) = 1%nat) /\
  (fst (Basic.get_track req' w') = Normal (Redirect u) /\
   exists l, db (snd (Basic.get_track req' w')) !! nextLinkId w rnd = Some l /\
             clicks l = 1).
Proof.
  intros Hn Hne Hu Hue Hfresh Hid w'. subst w'.
  rewrite (post_links_accepts req body rnd w n u Hn Hne Hu Hue Hfresh).
  cbn zeta. cbn [snd].
  set (l := {| linkId := nextLinkId w rnd |}).
  set (w' := withDb _ _).
  assert (Hl : db w' !! params_linkId req' = Some l).
  { rewrite Hid. apply lookup_insert_eq. }
  split; [| split].
  - exists l. rewrite <- Hid. split; [exact Hl | repeat split].
  - destruct (getGeolocation_total (getClientIp req') w')
      as (g & w1 & Hgeo & Hdb & _).
    rewrite (enhanced_get_track_run req' w' g w1 Hgeo). cbn zeta.
    rewrite Hdb, Hl, Hid. cbn [fst snd db withDb].
    split; [reflexivity |].
    eexists. split; [apply lookup_insert_eq |]. split; reflexivity.
  - rewrite basic_get_track_run, Hl, Hid. cbn [fst snd db withDb].
    split; [reflexivity |].
    eexists. split; [apply lookup_insert_eq |]. reflexivity.
Qed.

Lemma create_then_resolve_witness :
  db quietWorld !! nextLinkId quietWorld "k3j9x2m1q" = None /\
  fst (Basic.get_track (browserRequest springId)
         (snd (post_links (browserRequest "") newLinkBody "k3j9x2m1q"
                 quietWorld)))
  = Normal (Redirect "https://example.org/spring").
Proof.
  assert (H : db quietWorld !! nextLinkId quietWorld "k3j9x2m1q" = None)
    by reflexivity.
  split; [exact H |].
  refine (proj1 (proj2 (proj2
    (create_then_resolve (browserRequest "") (browserRequest springId)
       newLinkBody "k3j9x2m1q" quietWorld "Spring campaign"
       "https://example.org/spring" eq_refl _ eq_refl _ H eq_refl)))).
  - discriminate.
  - discriminate.
Defined.

(** X12: a creation is refused with status 500, and the store is left
    unchanged, when the name or the destination URL is missing, [null] or
    empty, or when the generated identifier is already taken. *)
Theorem post_links_refuses (req : Request) (body : CreateBody) (rnd : string)
    (w : World) :
  refused (b_name body) \/ refused (b_destinationUrl body) \/
  is_Some (db w !! nextLinkId w rnd) ->
  (exists message,
     fst (post_links req body rnd w) = Normal (SendJson 500 false message)) /\
  db (snd (post_links req body rnd w)) = db w.
Proof.
  unfold refused, nextLinkId.
  unfold post_links, tryCatch, bind, newDate, required, saveNew, throw, ret.
  cbn.
  destruct (b_name body) as [| | n]; cbn; eauto.
  destruct (Js.truthyString n); cbn; eauto.
  destruct (b_destinationUrl body) as [| | u]; cbn; eauto.
  destruct (Js.truthyString u); cbn; eauto.
  intros [H | [H | [l H]]]; try discriminate.
  rewrite H. cbn. eauto.
Qed.

Lemma post_links_refuses_witness :
  refused (b_name {| b_name := Js.val "";
                     b_destinationUrl := Js.val "https://example.org" |}) /\
  db (snd (post_links (browserRequest "")
             {| b_name := Js.val "";
                b_destinationUrl := Js.val "https://example.org" |}
             "k3j9x2m1q" createdWorld))
  = db createdWorld.
Proof.
  assert (H : refused (b_name {| b_name := Js.val "";
                     b_destinationUrl := Js.val "https://example.org" |}))
    by reflexivity.
  split; [exact H |].
  exact (proj2 (post_links_refuses (browserRequest "") _ "k3j9x2m1q"
                  createdWorld (or_introl H))).
Defined.

(** X13: a creation never changes or replaces a link that exists: every
    link of the store is still there, unchanged, after any
    [POST /api/links]. *)
Theorem post_links_keeps_links (req : Request) (body : CreateBody)
    (rnd : string) (w : World) (id : string) (l : Link) :
  db w !! id = Some l ->
  db (snd (post_links req body rnd w)) !! id = Some l.
Proof.
  intros Hl.
  destruct (post_links_run req body rnd w)
    as [-> | (l' & _ & _ & Hfresh & ->)]; [assumption |].
  rewrite lookup_insert_ne; [assumption | congruence].
Qed.

Lemma post_links_keeps_links_witness :
  db createdWorld !! springId = Some springLink /\
  db (snd (post_links (browserRequest "") newLinkBody "zzzzzzzzz"
             createdWorld)) !! springId = Some springLink.
Proof.
  assert (H : db createdWorld !! springId = Some springLink)
    by (vm_compute; reflexivity).
  split; [exact H |].
  exact (post_links_keeps_links (browserRequest "") newLinkBody "zzzzzzzzz"
           createdWorld springId springLink H).
Defined.

(** X14: a deletion always answers success, whether the link exists or
    not; afterwards the link is absent, every other link is unchanged, and
    deleting again changes nothing. *)
Theorem delete_link_idempotent (id : string) (w : World) :
  fst (delete_link id w) = Normal (SendJson 200 true "") /\
  db (snd (delete_link id w)) !! id = None /\
  (forall id', id' <> id ->
               db (snd (delete_link id w)) !! id' = db w !! id') /\
  snd (delete_link id (snd (delete_link id w))) = snd (delete_link id w).
Proof.
  repeat split.
  - cbn. apply lookup_delete_eq.
  - intros id' Hne. cbn. now apply lookup_delete_ne.
  - cbn. unfold withDb. cbn. f_equal.
    apply delete_id, lookup_delete_eq.
Qed.

(** X15: a deleted link is gone for every route: right after the deletion,
    resolving its identifier answers 404 in each of the three programs and
    leaves the store as it was, and so does a deferred-enrichment post and
    a fetch of its records (which leave the whole world as it was). *)
Theorem delete_then_not_found (id : string) (req : Request) (body : Payload)
    (w : World) :
  params_linkId req = id ->
  let w' := snd (delete_link id w) in
  fst (Enhanced.get_track req w')
  = Normal (SendText 404 "Tracking link not found") /\
  fst (Records.get_track req w')
  = Normal (SendText 404 "Tracking link not found") /\
  fst (Basic.get_track req w')
  = Normal (SendText 404 "Tracking link not found") /\
  Enhanced.post_track_update id body w'
  = (Normal (SendJson 404 false "Link or record not found"), w') /\
  get_records id w' = (Normal (ErrorJson 404 "Link not found"), w') /\
  db (snd (Enhanced.get_track req w')) = db w' /\
  db (snd (Records.get_track req w')) = db w' /\
  db (snd (Basic.get_track req w')) = db w'.
Proof.
  intros Hid w'.
  assert (Hgone : db w' !! id = None) by apply lookup_delete_eq.
  destruct (getGeolocation_total (getClientIp req) w')
    as (g & w1 & Hgeo & Hdb & _).
  rewrite (enhanced_get_track_run req w' g w1 Hgeo),
    (records_get_track_run req w' g w1 Hgeo), basic_get_track_run.
  cbn zeta. rewrite Hid, Hdb, Hgone.
  repeat split; try assumption.
  - apply post_track_update_missing. now left.
  - unfold get_records, tryCatch, bind, findOne. now rewrite Hgone.
Qed.

Lemma delete_then_not_found_witness :
  params_linkId (browserRequest springId) = springId /\
  fst (Enhanced.get_track (browserRequest springId)
         (snd (delete_link springId enhancedClicked)))
  = Normal (SendText 404 "Tracking link not found") /\
  db (snd (Records.get_track (browserRequest springId)
             (snd (delete_link springId enhancedClicked))))
  = db (snd (delete_link springId enhancedClicked)) /\
  db (snd (Basic.get_track (browserRequest springId)
             (snd (delete_link springId enhancedClicked))))
  = db (snd (delete_link springId enhancedClicked)).
Proof.
  split; [reflexivity |].
  destruct (delete_then_not_found springId (browserRequest springId)
              grantedPayload enhancedClicked eq_refl)
    as (Hanswer & _ & _ & _ & _ & _ & Hrecords & Hbasic).
  split; [exact Hanswer |]. split; [exact Hrecords | exact Hbasic].
Defined.

(** ** What a resolution and a merge leave alone *)

Lemma dom_insert_present (d : gmap string Link) (id : string) (l l' : Link) :
  d !! id = Some l -> dom (<[id := l']> d) = dom d.
Proof.
  intros Hl. apply dom_insert_lookup_L. eauto.
Qed.

(** X16: neither a resolution (in any of the three programs) nor a
    deferred-enrichment post creates or removes a link, and a resolution
    changes no link but the one it names. *)
Theorem resolution_frame (req : Request) (id : string) (body : Payload)
    (w : World) :
  (dom (db (snd (Enhanced.get_track req w))) = dom (db w) /\
   dom (db (snd (Records.get_track req w))) = dom (db w) /\
   dom (db (snd (Basic.get_track req w))) = dom (db w) /\
   dom (db (snd (Enhanced.post_track_update id body w))) = dom (db w)) /\
  (forall id', id' <> params_linkId req ->
     db (snd (Enhanced.get_track req w)) !! id' = db w !! id' /\
     db (snd (Records.get_track req w)) !! id' = db w !! id' /\
     db (snd (Basic.get_track req w)) !! id' = db w !! id').
Proof.
  destruct (getGeolocation_total (getClientIp req) w)
    as (g & w1 & Hgeo & Hdb & _).
  rewrite (enhanced_get_track_run req w g w1 Hgeo),
    (records_get_track_run req w g w1 Hgeo), basic_get_track_run.
  cbn zeta. rewrite Hdb.
  split.
  - repeat split.
    + destruct (db w !! params_linkId req) eqn:E; cbn; [| congruence].
      eauto using dom_insert_present.
    + destruct (db w !! params_linkId req) eqn:E; cbn; [| congruence].
      eauto using dom_insert_present.
    + destruct (db w !! params_linkId req) eqn:E; cbn; [| reflexivity].
      eauto using dom_insert_present.
    + destruct (db w !! id) as [l |] eqn:E.
      * destruct (last_record (clickRecords l))
          as [Hnone | (older & last & Hlast)].
        -- rewrite post_track_update_missing by eauto. reflexivity.
        -- rewrite (post_track_update_run id body w l older last E Hlast).
           cbn. eauto using dom_insert_present.
      * rewrite post_track_update_missing by eauto. reflexivity.
  - intros id' Hne.
    destruct (db w !! params_linkId req) eqn:E; cbn; rewrite ?Hdb;
      rewrite ?lookup_insert_ne by congruence; auto.
Qed.

Lemma getGeolocation_fetchLog (ip : string) (w : World) :
  fetchLog (snd (getGeolocation ip w)) =
  (fetchLog w ++
   if isLocal (cleanIpOf ip) then [] else [lookupUrl (cleanIpOf ip)])%list.
Proof.
  unfold getGeolocation, bind, tryCatch, fetch.
  destruct (isLocal (cleanIpOf ip)).
  - cbn. now rewrite app_nil_r.
  - destruct (network w (lookupUrl (cleanIpOf ip))) as [| [| | data]];
      cbn; auto.
    destruct (isSuccess (d_status data)); cbn; auto.
Qed.

(** X17: both programs of [unnamed/part_000] look the client address up
    before they look the link up: a resolution from an address that is not
    local sends exactly one request to ip-api.com whether the link exists
    or not, whereas [server.js] never sends any. *)
Theorem resolution_lookup_comes_first (req : Request) (w : World) :
  isLocal (cleanIpOf (getClientIp req)) = false ->
  fetchLog (snd (Enhanced.get_track req w))
  = (fetchLog w ++ [lookupUrl (cleanIpOf (getClientIp req))])%list /\
  fetchLog (snd (Records.get_track req w))
  = (fetchLog w ++ [lookupUrl (cleanIpOf (getClientIp req))])%list /\
  fetchLog (snd (Basic.get_track req w)) = fetchLog w.
Proof.
  intros Hremote.
  pose proof (getGeolocation_fetchLog (getClientIp req) w) as Hlog.
  rewrite Hremote in Hlog.
  destruct (getGeolocation (getClientIp req) w) as [c w1] eqn:Hgeo.
  destruct (getGeolocation_total (getClientIp req) w)
    as (g & w1' & Hgeo' & _).
  rewrite Hgeo in Hgeo'. injection Hgeo' as -> <-.
  rewrite (enhanced_get_track_run req w g w1 Hgeo),
    (records_get_track_run req w g w1 Hgeo), basic_get_track_run.
  cbn zeta. cbn [snd] in Hlog.
  repeat split;
    destruct (db w1 !! params_linkId req); try destruct (db w !! params_linkId req);
    cbn; auto.
Qed.

Lemma resolution_lookup_comes_first_witness :
  isLocal (cleanIpOf (getClientIp (browserRequest "link_0_nobody"))) = false /\
  fetchLog (snd (Enhanced.get_track (browserRequest "link_0_nobody")
                   quietWorld))
  = ["http://ip-api.com/json/203.0.113.7"].
Proof.
  split; [vm_compute; reflexivity |].
  refine (proj1 (resolution_lookup_comes_first
                   (browserRequest "link_0_nobody") quietWorld _)).
  vm_compute. reflexivity.
Defined.

(** ** Merging twice, and merging after a second click *)

Lemma assignIfDefined_twice {A} (x old : Js.value A) :
  Enhanced.assignIfDefined x (Enhanced.assignIfDefined x old)
  = Enhanced.assignIfDefined x old.
Proof. destruct x; reflexivity. Qed.

Lemma assignIfNotNull_twice {A} (x old : Js.value A) :
  Enhanced.assignIfNotNull x (Enhanced.assignIfNotNull x old)
  = Enhanced.assignIfNotNull x old.
Proof. destruct x; reflexivity. Qed.

Lemma mergePayload_twice (body : Payload) (r : ClickRecord) :
  Enhanced.mergePayload body (Enhanced.mergePayload body r)
  = Enhanced.mergePayload body r.
Proof.
  unfold Enhanced.mergePayload. cbn.
  now rewrite !assignIfDefined_twice, !assignIfNotNull_twice.
Qed.

(** X18: the deferred-enrichment post is idempotent: posting the same
    payload a second time gives the same answer and leaves the world exactly
    as the first post left it. *)
Theorem post_track_update_idempotent (id : string) (body : Payload)
    (w : World) :
  Enhanced.post_track_update id body
    (snd (Enhanced.post_track_update id body w))
  = Enhanced.post_track_update id body w.
Proof.
  destruct (db w !! id) as [l |] eqn:E.
  - destruct (last_record (clickRecords l)) as [Hnone | (older & last & Hlast)].
    + rewrite !(post_track_update_missing id body w) by eauto. cbn [snd].
      apply post_track_update_missing. eauto.
    + rewrite (post_track_update_run id body w l older last E Hlast).
      cbn [snd].
      erewrite post_track_update_run;
        [| cbn; apply lookup_insert_eq | reflexivity].
      rewrite mergePayload_twice. unfold withDb. cbn.
      now rewrite insert_insert_eq.
  - rewrite !(post_track_update_missing id body w) by eauto. cbn [snd].
    apply post_track_update_missing. eauto.
Qed.

(** A resolution by the interstitial program of a link that exists. *)
Lemma enhanced_get_track_existing (req : Request) (w : World) (l : Link) :
  db w !! params_linkId req = Some l ->
  exists g w',
    Enhanced.get_track req w =
    (Normal (Interstitial (Enhanced.apiBaseOf req) (params_linkId req)
               (destinationUrl l)), w') /\
    db w' = <[params_linkId req :=
                incSetAndPush (clock w (S (clockReads w)))
                  (enhancedRecord req (clock w (clockReads w)) g) l]> (db w) /\
    clock w' = clock w /\ clockReads w' = S (S (clockReads w)) /\
    network w' = network w.
Proof.
  intros Hl.
  destruct (getGeolocation_total (getClientIp req) w)
    as (g & w1 & Hgeo & Hdb & Hnet & Hclock & Hreads).
  rewrite (enhanced_get_track_run req w g w1 Hgeo). cbn zeta.
  rewrite Hdb, Hl, Hclock, Hreads.
  do 2 eexists. split; [reflexivity |]. cbn.
  rewrite Hclock, Hreads, Hnet. auto.
Qed.

(** X19: the merge goes to the latest click, whoever posts: when a link is
    resolved for one request and then for another before any post arrives,
    a post that follows is merged into the record of the second request,
    and the record of the first stays at its sentinel defaults. *)
Theorem enrichment_lands_on_latest_click (req1 req2 : Request)
    (body : Payload) (w : World) (l : Link) :
  db w !! params_linkId req1 = Some l ->
  params_linkId req2 = params_linkId req1 ->
  let w1 := snd (Enhanced.get_track req1 w) in
  let w2 := snd (Enhanced.get_track req2 w1) in
  let w3 := snd (Enhanced.post_track_update (params_linkId req1) body w2) in
  exists l3 r1 r2,
    db w3 !! params_linkId req1 = Some l3 /\
    clickRecords l3 = (clickRecords l ++ [r1; r2])%list /\
    clicks l3 = clicks l + 2 /\
    ipAddress r1 = getClientIp req1 /\ atSentinelDefaults r1 /\
    ipAddress r2 = getClientIp req2 /\
    mergedIfPresent (p_cameraPermission body)
      (Js.val "not_requested") (cameraPermission r2) /\
    mergedIfNotNull (p_userLatitude body) Js.undefined (userLatitude r2).
Proof.
  intros Hl Hid w1 w2 w3. subst w1 w2 w3.
  destruct (enhanced_get_track_existing req1 w l Hl)
    as (g1 & w1 & Hrun1 & Hdb1 & _).
  rewrite Hrun1. cbn [snd].
  set (l1 := incSetAndPush _ _ l) in Hdb1.
  assert (Hl1 : db w1 !! params_linkId req2 = Some l1).
  { rewrite Hid, Hdb1. apply lookup_insert_eq. }
  destruct (enhanced_get_track_existing req2 w1 l1 Hl1)
    as (g2 & w2 & Hrun2 & Hdb2 & _).
  rewrite Hrun2. cbn [snd].
  set (r2 := enhancedRecord req2 _ g2) in Hdb2.
  set (l2 := incSetAndPush _ r2 l1) in Hdb2.
  assert (Hl2 : db w2 !! params_linkId req1 = Some l2).
  { rewrite Hdb2, Hid. apply lookup_insert_eq. }
  assert (Hrecords : clickRecords l2
            = ((clickRecords l ++ [enhancedRecord req1
                                      (clock w (clockReads w)) g1])
               ++ [r2])%list) by reflexivity.
  rewrite (post_track_update_run _ body w2 l2 _ r2 Hl2 Hrecords). cbn [snd db withDb].
  do 3 eexists. split; [apply lookup_insert_eq |].
  split; [cbn; now rewrite <- app_assoc |].
  split; [cbn; lia |].
  split; [reflexivity |]. split; [repeat split |]. split; [reflexivity |].
  split; [apply assignIfDefined_merged | apply assignIfNotNull_merged].
Qed.

Lemma enrichment_lands_on_latest_click_witness :
  db createdWorld !! params_linkId (browserRequest springId)
  = Some springLink /\
  exists l3 r1 r2,
    db (snd (Enhanced.post_track_update springId grantedPayload
               (snd (Enhanced.get_track (localRequest springId)
                       (snd (Enhanced.get_track (browserRequest springId)
                               createdWorld)))))) !! springId = Some l3 /\
    clickRecords l3 = [r1; r2] /\
    ipAddress r1 = "203.0.113.7" /\ atSentinelDefaults r1 /\
    ipAddress r2 = "::1" /\ userLatitude r2 = Js.val 40.5%float.
Proof.
  assert (H : db createdWorld !! params_linkId (browserRequest springId)
              = Some springLink) by (vm_compute; reflexivity).
  split; [exact H |].
  destruct (enrichment_lands_on_latest_click (browserRequest springId)
              (localRequest springId) grantedPayload createdWorld springLink
              H eq_refl)
    as (l3 & r1 & r2 & Hl3 & Hrecords & _ & Hip1 & Hdefaults & Hip2 & _ & Hlat).
  exists l3, r1, r2.
  split; [exact Hl3 |]. split; [exact Hrecords |].
  split; [exact Hip1 |]. split; [exact Hdefaults |]. split; [exact Hip2 |].
  exact (proj2 Hlat _ eq_refl).
Defined.
(** ** What every run keeps *)

Lemma post_links_clock (req : Request) (body : CreateBody) (rnd : string)
    (w : World) :
  clockKept w (snd (post_links req body rnd w)).
Proof.
  unfold clockKept, post_links, tryCatch, bind, newDate, required, saveNew,
    throw, ret.
  cbn.
  destruct (b_name body) as [| | n]; cbn; try (split; [reflexivity | lia]).
  destruct (Js.truthyString n); cbn; try (split; [reflexivity | lia]).
  destruct (b_destinationUrl body) as [| | u]; cbn;
    try (split; [reflexivity | lia]).
  destruct (Js.truthyString u); cbn; try (split; [reflexivity | lia]).
  match goal with
  | |- context [db w !! ?k] => destruct (db w !! k)
  end; cbn; split; (reflexivity || lia).
Qed.

Lemma post_links_write (counting : bool) (req : Request) (body : CreateBody)
    (rnd : string) (w : World) :
  Write counting w (snd (post_links req body rnd w)).
Proof.
  destruct (post_links_run req body rnd w)
    as [H | (l & _ & Hrecords & Hfresh & H)].
  - now apply write_none.
  - now apply (write_create _ _ _ l).
Qed.

Lemma records_get_track_existing (req : Request) (w : World) (l : Link) :
  db w !! params_linkId req = Some l ->
  exists r w',
    Records.get_track req w = (Normal (Redirect (destinationUrl l)), w') /\
    timestamp r = clock w (clockReads w) /\
    db w' = <[params_linkId req :=
                incSetAndPush (clock w (S (clockReads w))) r l]> (db w) /\
    clock w' = clock w /\ clockReads w' = S (S (clockReads w)).
Proof.
  intros Hl.
  destruct (getGeolocation_total (getClientIp req) w)
    as (g & w1 & Hgeo & Hdb & Hnet & Hclock & Hreads).
  rewrite (records_get_track_run req w g w1 Hgeo). cbn zeta.
  rewrite Hdb, Hl, Hclock, Hreads.
  do 2 eexists. split; [reflexivity |]. cbn.
  rewrite Hclock, Hreads.
  split; [| split; [reflexivity | split; reflexivity]].
  reflexivity.
Qed.

Lemma get_track_missing (req : Request) (w : World) :
  db w !! params_linkId req = None ->
  (db (snd (Enhanced.get_track req w)) = db w /\
   clockKept w (snd (Enhanced.get_track req w))) /\
  (db (snd (Records.get_track req w)) = db w /\
   clockKept w (snd (Records.get_track req w))).
Proof.
  intros Hnone.
  destruct (getGeolocation_total (getClientIp req) w)
    as (g & w1 & Hgeo & Hdb & _ & Hclock & Hreads).
  rewrite (enhanced_get_track_run req w g w1 Hgeo),
    (records_get_track_run req w g w1 Hgeo).
  cbn zeta. rewrite Hdb, Hnone. unfold clockKept. cbn.
  rewrite Hclock, Hreads. repeat split; auto; lia.
Qed.

Lemma post_track_update_write (counting : bool) (id : string)
    (body : Payload) (w : World) :
  Write counting w (snd (Enhanced.post_track_update id body w)) /\
  clockKept w (snd (Enhanced.post_track_update id body w)).
Proof.
  assert (Hsame : clockKept w w) by (split; [reflexivity | lia]).
  destruct (db w !! id) as [l |] eqn:E.
  - destruct (last_record (clickRecords l)) as [Hnone | (older & last & Hlast)].
    + rewrite post_track_update_missing by eauto.
      split; [now apply write_none | exact Hsame].
    + rewrite (post_track_update_run id body w l older last E Hlast).
      split; [| exact Hsame].
      now apply (write_merge _ _ _ id l older last body).
  - rewrite post_track_update_missing by eauto.
    split; [now apply write_none | exact Hsame].
Qed.

Lemma enhanced_write (c : Call) (w : World) :
  Write false w (snd (Enhanced.app c w)) /\
  clockKept w (snd (Enhanced.app c w)).
Proof.
  destruct c as [req body rnd | id | req | id body]; cbn [Enhanced.app].
  - split; [apply post_links_write | apply post_links_clock].
  - split; [now apply (write_delete _ _ _ id) |].
    split; [reflexivity | cbn; lia].
  - destruct (db w !! params_linkId req) as [l |] eqn:E.
    + destruct (enhanced_get_track_existing req w l E)
        as (g & w' & -> & Hdb & Hclock & Hreads & _).
      cbn [snd]. split; [| split; [assumption | lia]].
      now apply (write_click _ _ _ (params_linkId req) l
                   (enhancedRecord req (clock w (clockReads w)) g)).
    + destruct (get_track_missing req w E) as [[Hdb Hkept] _].
      split; [now apply write_none | exact Hkept].
  - apply post_track_update_write.
Qed.

Lemma records_write (c : Call) (w : World) :
  Write false w (snd (Records.app c w)) /\
  clockKept w (snd (Records.app c w)).
Proof.
  destruct c as [req body rnd | id | req | id body]; cbn [Records.app].
  - split; [apply post_links_write | apply post_links_clock].
  - split; [now apply (write_delete _ _ _ id) |].
    split; [reflexivity | cbn; lia].
  - destruct (db w !! params_linkId req) as [l |] eqn:E.
    + destruct (records_get_track_existing req w l E)
        as (r & w' & -> & Hstamp & Hdb & Hclock & Hreads).
      cbn [snd]. split; [| split; [assumption | lia]].
      now apply (write_click _ _ _ (params_linkId req) l r).
    + destruct (get_track_missing req w E) as [_ [Hdb Hkept]].
      split; [now apply write_none | exact Hkept].
  - cbn. split; [now apply write_none | split; [reflexivity | lia]].
Qed.

Lemma basic_write (c : Call) (w : World) :
  Write true w (snd (Basic.app c w)).
Proof.
  destruct c as [req body rnd | id | req | id body]; cbn [Basic.app].
  - apply post_links_write.
  - now apply (write_delete _ _ _ id).
  - rewrite basic_get_track_run.
    destruct (db w !! params_linkId req) as [l |] eqn:E; cbn [snd].
    + now apply (write_count _ _ _ (params_linkId req) l
                   (clock w (clockReads w))).
    + now apply write_none.
  - now apply write_none.
Qed.

Lemma keyedStore_write (counting : bool) (w w' : World) :
  Write counting w w' -> keyedStore (db w) -> keyedStore (db w').
Proof.
  intros Hwrite Hkeyed k l' Hk.
  destruct Hwrite as [H | l Hfresh _ H | id H | id l now _ Hl H
                     | id l r Hl _ H _ | id l older last body Hl _ H];
    rewrite H in Hk.
  - eauto.
  - destruct (decide (linkId l = k)) as [<- | Hne].
    + rewrite lookup_insert_eq in Hk. congruence.
    + rewrite lookup_insert_ne in Hk by assumption. eauto.
  - destruct (decide (id = k)) as [<- | Hne].
    + rewrite lookup_delete_eq in Hk. discriminate.
    + rewrite lookup_delete_ne in Hk by assumption. eauto.
  - destruct (decide (id = k)) as [<- | Hne].
    + rewrite lookup_insert_eq in Hk. injection Hk as <-. cbn. eauto.
    + rewrite lookup_insert_ne in Hk by assumption. eauto.
  - destruct (decide (id = k)) as [<- | Hne].
    + rewrite lookup_insert_eq in Hk. injection Hk as <-. cbn. eauto.
    + rewrite lookup_insert_ne in Hk by assumption. eauto.
  - destruct (decide (id = k)) as [<- | Hne].
    + rewrite lookup_insert_eq in Hk. injection Hk as <-. cbn. eauto.
    + rewrite lookup_insert_ne in Hk by assumption. eauto.
Qed.

(** X20: in every run of each of the three programs, every link is stored
    under its own identifier: no call changes the [linkId] of a link, and a
    lookup by identifier returns a link that carries that identifier. *)
Theorem links_keep_their_identifier :
  (forall w, reachable Enhanced.app w -> keyedStore (db w)) /\
  (forall w, reachable Records.app w -> keyedStore (db w)) /\
  (forall w, reachable Basic.app w -> keyedStore (db w)).
Proof.
  assert (Hempty : forall w : World, db w = ∅ -> keyedStore (db w)).
  { intros w -> id l H. rewrite lookup_empty in H. discriminate. }
  repeat split; intros w Hreach;
    induction Hreach as [w Hstart | w c _ IH]; auto.
  - exact (keyedStore_write _ _ _ (proj1 (enhanced_write c w)) IH).
  - exact (keyedStore_write _ _ _ (proj1 (records_write c w)) IH).
  - exact (keyedStore_write _ _ _ (basic_write c w) IH).
Qed.

Lemma links_keep_their_identifier_witness :
  reachable Basic.app basicClicked /\ keyedStore (db basicClicked).
Proof.
  assert (H : reachable Basic.app basicClicked).
  { unfold basicClicked, createdWorld.
    do 2 apply reach_serve. apply reach_start. reflexivity. }
  split; [exact H |].
  exact (proj2 (proj2 links_keep_their_identifier) basicClicked H).
Defined.

Lemma StronglySorted_snoc {A} (R : A -> A -> Prop) (l : list A) (y : A) :
  StronglySorted R l -> Forall (fun x => R x y) l ->
  StronglySorted R (l ++ [y]).
Proof.
  induction 1 as [| x l Hsorted IH Hx]; intros Hy; cbn.
  - repeat constructor.
  - apply Forall_cons in Hy as [Hxy Hy].
    constructor; [now apply IH |].
    apply Forall_app. split; [assumption | now constructor].
Qed.

Lemma stamped_weaken (clk : nat -> Date) (reads reads' : nat) (l : Link) :
  (reads <= reads')%nat -> stamped clk reads l -> stamped clk reads' l.
Proof.
  intros Hle [Hchrono Hstamps]. split; [assumption |].
  eapply Forall_impl; [exact Hstamps |].
  intros stamp (n & Hn & ->). exists n. split; [lia | reflexivity].
Qed.

Lemma stamped_push (clk : nat -> Date) (reads : nat) (l : Link)
    (r : ClickRecord) :
  monotoneClock clk -> stamped clk reads l -> timestamp r = clk reads ->
  stamped clk (S (S reads)) (incSetAndPush (clk (S reads)) r l).
Proof.
  intros Hmono [[Hsorted Hlast] Hstamps] Hr.
  assert (Hold : Forall (fun stamp => stamp <= clk reads)
                   (timestamp <$> clickRecords l)).
  { eapply Forall_impl; [exact Hstamps |].
    intros stamp (n & Hn & ->). apply Hmono. lia. }
  assert (Hnext : clk reads <= clk (S reads)) by (apply Hmono; lia).
  unfold stamped, chronological. cbn [clickRecords lastClicked incSetAndPush].
  rewrite fmap_app. cbn [fmap list_fmap]. rewrite Hr.
  repeat split.
  - now apply StronglySorted_snoc.
  - apply Forall_app. split.
    + eapply Forall_impl; [exact Hold |].
      intros stamp Hstamp. cbn beta in Hstamp.
      exists (clk (S reads)). split; [reflexivity | lia].
    + repeat constructor. exists (clk (S reads)). split; [reflexivity | lia].
  - apply Forall_app. split.
    + eapply Forall_impl; [exact Hstamps |].
      intros stamp (n & Hn & ->). exists n. split; [lia | reflexivity].
    + repeat constructor. exists reads. split; [lia | reflexivity].
Qed.

Lemma stamped_merge (clk : nat -> Date) (reads : nat) (l : Link)
    (older : list ClickRecord) (last : ClickRecord) (body : Payload) :
  clickRecords l = (older ++ [last])%list -> stamped clk reads l ->
  stamped clk reads
    (Enhanced.withClickRecords l (older ++ [Enhanced.mergePayload body last])).
Proof.
  intros Hlast. unfold stamped, chronological.
  cbn [clickRecords lastClicked Enhanced.withClickRecords].
  rewrite Hlast, !fmap_app. cbn. tauto.
Qed.

Lemma stamped_write (w w' : World) :
  Write false w w' -> clockKept w w' -> monotoneClock (clock w) ->
  (forall id l, db w !! id = Some l -> stamped (clock w) (clockReads w) l) ->
  forall id l, db w' !! id = Some l -> stamped (clock w') (clockReads w') l.
Proof.
  intros Hwrite [Hclock Hreads] Hmono Hinv k l' Hk. rewrite Hclock.
  assert (Hkeep : forall id l, db w !! id = Some l ->
                    stamped (clock w) (clockReads w') l)
    by eauto using stamped_weaken.
  destruct Hwrite as [H | l Hfresh Hnone H | id H | id l now Hcount Hl H
                     | id l r Hl Hstamp H Hreads' | id l older last body Hl Hlast H];
    rewrite H in Hk.
  - eauto.
  - destruct (decide (linkId l = k)) as [<- | Hne].
    + rewrite lookup_insert_eq in Hk. injection Hk as <-.
      unfold stamped, chronological. rewrite Hnone. cbn.
      repeat split; constructor.
    + rewrite lookup_insert_ne in Hk by assumption. eauto.
  - destruct (decide (id = k)) as [<- | Hne].
    + rewrite lookup_delete_eq in Hk. discriminate.
    + rewrite lookup_delete_ne in Hk by assumption. eauto.
  - discriminate.
  - destruct (decide (id = k)) as [<- | Hne].
    + rewrite lookup_insert_eq in Hk. injection Hk as <-.
      rewrite Hreads'. apply stamped_push; eauto.
    + rewrite lookup_insert_ne in Hk by assumption. eauto.
  - destruct (decide (id = k)) as [<- | Hne].
    + rewrite lookup_insert_eq in Hk. injection Hk as <-.
      apply stamped_merge; eauto.
    + rewrite lookup_insert_ne in Hk by assumption. eauto.
Qed.

Lemma reachable_stamped (app : Call -> Eff Response) :
  (forall c w, Write false w (snd (app c w)) /\ clockKept w (snd (app c w))) ->
  forall w, reachable app w -> monotoneClock (clock w) ->
  forall id l, db w !! id = Some l -> stamped (clock w) (clockReads w) l.
Proof.
  intros Happ w Hreach.
  induction Hreach as [w Hstart | w c _ IH]; intros Hmono id l Hl.
  - rewrite Hstart, lookup_empty in Hl. discriminate.
  - destruct (Happ c w) as [Hwrite Hkept].
    assert (Hmono' : monotoneClock (clock w)).
    { destruct Hkept as [<- _]. exact Hmono. }
    eapply stamped_write; eauto.
Qed.

(** X21: when the clock never runs backwards and the requests are served
    one after the other (no request starts before the one before it has
    finished), every click history both programs of [unnamed/part_000]
    build is in chronological order: in every such run, the timestamps of
    a link's click records never decrease along the sequence, and none is
    later than the link's last-clicked timestamp. A merge does not disturb
    the order. Runs in which two resolutions overlap are not covered. *)
Theorem click_history_is_chronological :
  (forall w, reachable Enhanced.app w -> monotoneClock (clock w) ->
             forall id l, db w !! id = Some l -> chronological l) /\
  (forall w, reachable Records.app w -> monotoneClock (clock w) ->
             forall id l, db w !! id = Some l -> chronological l).
Proof.
  split; intros w Hreach Hmono id l Hl.
  - exact (proj1 (reachable_stamped Enhanced.app enhanced_write
                    w Hreach Hmono id l Hl)).
  - exact (proj1 (reachable_stamped Records.app records_write
                    w Hreach Hmono id l Hl)).
Qed.

Lemma click_history_is_chronological_witness :
  reachable Enhanced.app busyWorld /\
  monotoneClock (clock busyWorld) /\
  exists l, db busyWorld !! springId = Some l /\
            length (clickRecords l) = 3%nat /\ chronological l.
Proof.
  assert (H : reachable Enhanced.app busyWorld).
  { unfold busyWorld, twiceClicked, enhancedClicked.
    do 6 apply reach_serve. apply reach_start. reflexivity. }
  assert (Hmono : monotoneClock (clock busyWorld)).
  { assert (Hclock : clock busyWorld = clock quietWorld).
    { unfold busyWorld, twiceClicked, enhancedClicked.
      repeat (etransitivity; [apply (proj2 (enhanced_write _ _)) |]).
      reflexivity. }
    intros m n Hmn. rewrite Hclock. cbn. lia. }
  assert (Hl : exists l, db busyWorld !! springId = Some l /\
                         length (clickRecords l) = 3%nat).
  { eexists. split; [vm_compute; reflexivity | reflexivity]. }
  destruct Hl as (l & Hl & Hlength).
  split; [exact H |]. split; [exact Hmono |].
  exists l. split; [exact Hl |]. split; [exact Hlength |].
  exact (proj1 click_history_is_chronological busyWorld H Hmono springId l Hl).
Defined.

Example busy_history_timestamps :
  (fun l => (timestamp <$> clickRecords l, lastClicked l)) <$>
    (db busyWorld !! springId)
  = Some ([1700000000002; 1700000000004; 1700000000006],
          Some 1700000000007).
Proof. vm_compute. reflexivity. Qed.

(** ** The routes that only read *)

Lemma insertNewest_perm (l : Link) (sorted : list Link) :
  insertNewest l sorted ≡ₚ l :: sorted.
Proof.
  induction sorted as [| l' rest IH]; cbn; [reflexivity |].
  destruct (createdAt l' <? createdAt l); [reflexivity |].
  rewrite IH. apply Permutation_swap.
Qed.

Lemma sortNewestFirst_perm (links : list Link) :
  sortNewestFirst links ≡ₚ links.
Proof.
  induction links as [| l links IH]; cbn; [reflexivity |].
  now rewrite insertNewest_perm, IH.
Qed.

Lemma insertNewest_sorted (l : Link) (sorted : list Link) :
  StronglySorted newerOrSame sorted ->
  StronglySorted newerOrSame (insertNewest l sorted).
Proof.
  induction 1 as [| l' rest Hsorted IH Hl']; cbn.
  - repeat constructor.
  - destruct (Z.ltb_spec (createdAt l') (createdAt l)) as [Hlt | Hge].
    + constructor; [now constructor |].
      constructor; [unfold newerOrSame; lia |].
      eapply Forall_impl; [exact Hl' |].
      unfold newerOrSame. intros; lia.
    + constructor; [assumption |].
      rewrite insertNewest_perm. now constructor.
Qed.

Lemma sortNewestFirst_sorted (links : list Link) :
  StronglySorted newerOrSame (sortNewestFirst links).
Proof.
  induction links as [| l links IH]; cbn; [constructor |].
  now apply insertNewest_sorted.
Qed.

Lemma stored_links (d : gmap string Link) (l : Link) :
  l ∈ (map_to_list d).*2 <-> exists id, d !! id = Some l.
Proof.
  rewrite list_elem_of_fmap. split.
  - intros ([id l'] & -> & Hin). exists id. now apply elem_of_map_to_list.
  - intros (id & Hid). exists (id, l). split; [reflexivity |].
    now apply elem_of_map_to_list.
Qed.

(** X22: [GET /api/links] answers with every link of the store, each one
    once, the newest first (by creation time), and changes nothing. *)
Theorem get_links_newest_first (w : World) :
  exists links,
    get_links w = (Normal (LinksJson links), w) /\
    (forall l, l ∈ links <-> exists id, db w !! id = Some l) /\
    length links = size (db w) /\
    StronglySorted newerOrSame links.
Proof.
  exists (sortNewestFirst ((map_to_list (db w)).*2)).
  split; [reflexivity |]. split; [| split].
  - intros l. rewrite sortNewestFirst_perm. apply stored_links.
  - rewrite sortNewestFirst_perm, length_fmap. apply length_map_to_list.
  - apply sortNewestFirst_sorted.
Qed.

(** X23: a link that was just created is listed: after a creation that
    succeeds, [GET /api/links] lists the new link, with no click, together
    with every link that was there before. *)
Theorem create_then_listed (req : Request) (body : CreateBody) (rnd : string)
    (w : World) (n u : string) :
  b_name body = Js.val n -> n <> "" ->
  b_destinationUrl body = Js.val u -> u <> "" ->
  db w !! nextLinkId w rnd = None ->
  exists links l,
    fst (get_links (snd (post_links req body rnd w)))
    = Normal (LinksJson links) /\
    l ∈ links /\ linkId l = nextLinkId w rnd /\ name l = n /\
    destinationUrl l = u /\ clicks l = 0 /\
    (forall id l', db w !! id = Some l' -> l' ∈ links) /\
    length links = S (size (db w)).
Proof.
  intros Hn Hne Hu Hue Hfresh.
  rewrite (post_links_accepts req body rnd w n u Hn Hne Hu Hue Hfresh).
  cbn zeta. cbn [snd].
  set (l := {| linkId := nextLinkId w rnd |}).
  exists (sortNewestFirst
            ((map_to_list (<[nextLinkId w rnd := l]> (db w))).*2)), l.
  split; [reflexivity |].
  split; [| repeat split].
  - rewrite sortNewestFirst_perm. apply stored_links.
    exists (nextLinkId w rnd). apply lookup_insert_eq.
  - intros id l' Hl'. rewrite sortNewestFirst_perm. apply stored_links.
    exists id. rewrite lookup_insert_ne; [assumption | congruence].
  - rewrite sortNewestFirst_perm, length_fmap, length_map_to_list.
    now apply map_size_insert_None.
Qed.

Lemma create_then_listed_witness :
  db quietWorld !! nextLinkId quietWorld "k3j9x2m1q" = None /\
  exists links l,
    fst (get_links (snd (post_links (browserRequest "") newLinkBody
                           "k3j9x2m1q" quietWorld)))
    = Normal (LinksJson links) /\
    l ∈ links /\ linkId l = springId.
Proof.
  assert (H : db quietWorld !! nextLinkId quietWorld "k3j9x2m1q" = None)
    by reflexivity.
  split; [exact H |].
  destruct (create_then_listed (browserRequest "") newLinkBody "k3j9x2m1q"
              quietWorld "Spring campaign" "https://example.org/spring"
              eq_refl ltac:(discriminate) eq_refl ltac:(discriminate) H)
    as (links & l & Hlinks & Hin & Hid & _).
  exists links, l. split; [exact Hlinks |]. split; [exact Hin | exact Hid].
Defined.

(** X24: two resolutions of a link by the interstitial program, then a
    fetch of its records: the fetch answers with the link's name,
    destination URL and creation time unchanged, a click count raised by 2,
    and the history extended by the two records in the order of the
    resolutions, stamped with the first and the third of the four clock
    readings made. *)
Theorem resolve_twice_then_records (req1 req2 : Request) (w : World)
    (l : Link) :
  db w !! params_linkId req1 = Some l ->
  params_linkId req2 = params_linkId req1 ->
  let w2 := snd (Enhanced.get_track req2 (snd (Enhanced.get_track req1 w))) in
  exists r1 r2,
    get_records (params_linkId req1) w2
    = (Normal (RecordsJson (name l) (destinationUrl l) (clicks l + 2)
                 (createdAt l) (clickRecords l ++ [r1; r2])), w2) /\
    ipAddress r1 = getClientIp req1 /\ ipAddress r2 = getClientIp req2 /\
    timestamp r1 = clock w (clockReads w) /\
    timestamp r2 = clock w (S (S (clockReads w))).
Proof.
  intros Hl Hid w2. subst w2.
  destruct (enhanced_get_track_existing req1 w l Hl)
    as (g1 & w1 & Hrun1 & Hdb1 & Hclock1 & Hreads1 & _).
  rewrite Hrun1. cbn [snd].
  set (l1 := incSetAndPush _ _ l) in Hdb1.
  assert (Hl1 : db w1 !! params_linkId req2 = Some l1).
  { rewrite Hid, Hdb1. apply lookup_insert_eq. }
  destruct (enhanced_get_track_existing req2 w1 l1 Hl1)
    as (g2 & w2 & Hrun2 & Hdb2 & _).
  rewrite Hrun2. cbn [snd].
  unfold get_records, tryCatch, bind, findOne.
  rewrite Hdb2, Hid, lookup_insert_eq. cbn.
  do 2 eexists. split.
  - do 2 f_equal. f_equal; [lia |]. now rewrite <- app_assoc.
  - split; [reflexivity |]. split; [reflexivity |]. split; [reflexivity |].
    cbn. now rewrite Hclock1, Hreads1.
Qed.

Lemma resolve_twice_then_records_witness :
  db createdWorld !! params_linkId (browserRequest springId)
  = Some springLink /\
  exists r1 r2 w2,
    get_records springId
      (snd (Enhanced.get_track (localRequest springId)
              (snd (Enhanced.get_track (browserRequest springId)
                      createdWorld))))
    = (Normal (RecordsJson "Spring campaign" "https://example.org/spring" 2
                 1700000000001 [r1; r2]), w2) /\
    ipAddress r1 = "203.0.113.7" /\ ipAddress r2 = "::1".
Proof.
  assert (H : db createdWorld !! params_linkId (browserRequest springId)
              = Some springLink) by (vm_compute; reflexivity).
  split; [exact H |].
  destruct (resolve_twice_then_records (browserRequest springId)
              (localRequest springId) createdWorld springLink H eq_refl)
    as (r1 & r2 & Hrecords & Hip1 & Hip2 & _).
  exists r1, r2. eexists.
  split; [exact Hrecords |]. split; [exact Hip1 | exact Hip2].
Defined.

(** ** The analytics counts *)

Lemma totalClicks_from (a : Z) (links : list Link) :
  foldl (fun sum link => sum + clicks link) a links = a + totalClicks links.
Proof.
  unfold totalClicks. revert a.
  induction links as [| l links IH]; intros a; cbn [foldl]; [lia |].
  rewrite (IH (a + clicks l)), (IH (0 + clicks l)). lia.
Qed.

Lemma totalClicks_cons (l : Link) (links : list Link) :
  totalClicks (l :: links) = clicks l + totalClicks links.
Proof.
  unfold totalClicks at 1. cbn [foldl]. rewrite totalClicks_from. lia.
Qed.

Lemma totalClicks_perm (links links' : list Link) :
  links ≡ₚ links' -> totalClicks links = totalClicks links'.
Proof.
  induction 1 as [| l ? ? _ IH | l l' ? | ? ? ? _ IH1 _ IH2];
    rewrite ?totalClicks_cons; lia.
Qed.

Lemma storeClicks_insert_fresh (d : gmap string Link) (id : string) (l : Link) :
  d !! id = None -> storeClicks (<[id := l]> d) = clicks l + storeClicks d.
Proof.
  intros Hfresh. unfold storeClicks.
  rewrite (totalClicks_perm _ (l :: (map_to_list d).*2)).
  - apply totalClicks_cons.
  - now rewrite (map_to_list_insert d id l Hfresh).
Qed.

Lemma storeClicks_delete (d : gmap string Link) (id : string) (l : Link) :
  d !! id = Some l -> storeClicks (delete id d) = storeClicks d - clicks l.
Proof.
  intros Hl.
  rewrite <- (insert_delete_id d id l Hl) at 2.
  rewrite storeClicks_insert_fresh by apply lookup_delete_eq. lia.
Qed.

Lemma storeClicks_insert (d : gmap string Link) (id : string) (l l' : Link) :
  d !! id = Some l ->
  storeClicks (<[id := l']> d) = storeClicks d - clicks l + clicks l'.
Proof.
  intros Hl.
  rewrite <- insert_delete_eq,
    storeClicks_insert_fresh by apply lookup_delete_eq.
  rewrite (storeClicks_delete d id l Hl). lia.
Qed.

Lemma analyticsTotals_run (w : World) :
  analyticsTotals w = (Normal (Z.of_nat (size (db w)), storeClicks (db w)), w).
Proof.
  unfold analyticsTotals, bind, find, ret, totalLinks, storeClicks.
  now rewrite length_fmap, length_map_to_list.
Qed.

(** X25: the analytics counts follow the writes: a resolution of a link
    that exists raises the total of clicks by exactly 1 in each of the
    three programs and leaves the number of links as it was; a
    deferred-enrichment post changes neither; deleting a link lowers the
    number of links by 1 and the total of clicks by that link's count. *)
Theorem analytics_follow_writes (req : Request) (body : Payload) (w : World)
    (l : Link) :
  db w !! params_linkId req = Some l ->
  let n := Z.of_nat (size (db w)) in
  let c := storeClicks (db w) in
  fst (analyticsTotals w) = Normal (n, c) /\
  fst (analyticsTotals (snd (Enhanced.get_track req w))) = Normal (n, c + 1) /\
  fst (analyticsTotals (snd (Records.get_track req w))) = Normal (n, c + 1) /\
  fst (analyticsTotals (snd (Basic.get_track req w))) = Normal (n, c + 1) /\
  fst (analyticsTotals
         (snd (Enhanced.post_track_update (params_linkId req) body w)))
  = Normal (n, c) /\
  fst (analyticsTotals (snd (delete_link (params_linkId req) w)))
  = Normal (n - 1, c - clicks l).
Proof.
  intros Hl n c. subst n c. rewrite !analyticsTotals_run. cbn [fst].
  rewrite delete_link_run.
  destruct (enhanced_get_track_existing req w l Hl)
    as (g & w1 & -> & Hdb1 & _).
  destruct (records_get_track_existing req w l Hl)
    as (r & w2 & -> & _ & Hdb2 & _).
  rewrite basic_get_track_run, Hl. cbn [snd db withDb].
  rewrite Hdb1, Hdb2.
  rewrite !(storeClicks_insert _ _ l) by assumption.
  rewrite !map_size_insert_Some by eauto. cbn [clicks incSetAndPush incAndSet].
  repeat split; try (do 2 f_equal; lia).
  - destruct (last_record (clickRecords l)) as [Hnone | (older & last & Hlast)].
    + rewrite post_track_update_missing by eauto. reflexivity.
    + rewrite (post_track_update_run _ body w l older last Hl Hlast).
      cbn [snd db withDb].
      rewrite (storeClicks_insert _ _ l) by assumption.
      rewrite map_size_insert_Some by eauto. cbn. do 2 f_equal. lia.
  - rewrite (storeClicks_delete _ _ l) by assumption.
    rewrite map_size_delete_Some by eauto.
    assert (size (db w) <> 0%nat).
    { intros Hzero. apply map_size_empty_iff in Hzero.
      rewrite Hzero, lookup_empty in Hl. discriminate. }
    do 2 f_equal. lia.
Qed.

Lemma analytics_follow_writes_witness :
  db createdWorld !! params_linkId (browserRequest springId)
  = Some springLink /\
  fst (analyticsTotals createdWorld) = Normal (1, 0) /\
  fst (analyticsTotals
         (snd (Enhanced.get_track (browserRequest springId) createdWorld)))
  = Normal (1, 1).
Proof.
  assert (H : db createdWorld !! params_linkId (browserRequest springId)
              = Some springLink) by (vm_compute; reflexivity).
  assert (Hn : Z.of_nat (size (db createdWorld)) = 1)
    by (vm_compute; reflexivity).
  assert (Hc : storeClicks (db createdWorld) = 0) by (vm_compute; reflexivity).
  split; [exact H |].
  destruct (analytics_follow_writes (browserRequest springId) grantedPayload
              createdWorld springLink H) as (H0 & H1 & _).
  rewrite Hn, Hc in H0, H1. split; [exact H0 | exact H1].
Defined.

Lemma reachable_counts (app : Call -> Eff Response) :
  (forall c w, storeInvariant (db w) -> storeInvariant (db (snd (app c w)))) ->
  forall w, reachable app w -> storeInvariant (db w).
Proof.
  intros Happ w Hreach.
  induction Hreach as [w Hstart | w c _ IH]; [| now apply Happ].
  rewrite Hstart. apply storeInvariant_empty.
Qed.

Lemma totalClicks_records (links : list Link) :
  Forall countsItsRecords links -> totalClicks links = totalRecords links.
Proof.
  unfold totalRecords.
  induction 1 as [| l links Hl _ IH]; [reflexivity |].
  rewrite totalClicks_cons, IH, Hl. cbn. rewrite length_app. lia.
Qed.

(** X26: in every run of either program of [unnamed/part_000], the total
    of clicks the analytics report is the number of click records the
    store holds, all links together. *)
Theorem analytics_count_the_records :
  (forall w, reachable Enhanced.app w ->
     fst (analyticsTotals w)
     = Normal (Z.of_nat (size (db w)), totalRecords ((map_to_list (db w)).*2))) /\
  (forall w, reachable Records.app w ->
     fst (analyticsTotals w)
     = Normal (Z.of_nat (size (db w)), totalRecords ((map_to_list (db w)).*2))).
Proof.
  assert (H : forall w, storeInvariant (db w) ->
     fst (analyticsTotals w)
     = Normal (Z.of_nat (size (db w)), totalRecords ((map_to_list (db w)).*2))).
  { intros w Hinv. rewrite analyticsTotals_run. cbn [fst].
    unfold storeClicks. rewrite totalClicks_records; [reflexivity |].
    apply Forall_forall. intros l Hin.
    apply stored_links in Hin as (id & Hid). eauto. }
  split; intros w Hreach; apply H.
  - exact (reachable_counts Enhanced.app enhanced_preserves w Hreach).
  - exact (reachable_counts Records.app records_preserves w Hreach).
Qed.

Lemma analytics_count_the_records_witness :
  reachable Enhanced.app enhancedClicked /\
  fst (analyticsTotals enhancedClicked) = Normal (1, 1).
Proof.
  assert (H : reachable Enhanced.app enhancedClicked).
  { unfold enhancedClicked.
    do 2 apply reach_serve. apply reach_start. reflexivity. }
  assert (Hn : Z.of_nat (size (db enhancedClicked)) = 1)
    by (vm_compute; reflexivity).
  assert (Hc : totalRecords ((map_to_list (db enhancedClicked)).*2) = 1)
    by (vm_compute; reflexivity).
  split; [exact H |].
  pose proof (proj1 analytics_count_the_records enhancedClicked H) as Htotal.
  rewrite Hn, Hc in Htotal. exact Htotal.
Defined.


(** ** The script of the interstitial page *)

Lemma cameraError_label (error : Page.PageError) :
  In (Page.cameraError error) ["denied"; "no_camera"; "timeout"; "not_supported"].
Proof. unfold Page.cameraError. case_conditions; cbn; tauto. Qed.

Lemma locationError_label (error : Page.PageError) :
  In (Page.locationError error)
    ["denied"; "unavailable"; "timeout"; "error"; "not_supported"].
Proof. unfold Page.locationError. case_conditions; cbn; tauto. Qed.

Lemma locationError_not_granted (error : Page.PageError) :
  Page.locationError error <> "granted".
Proof.
  pose proof (locationError_label error) as H. cbn in H.
  intros Heq. rewrite Heq in H.
  repeat (destruct H as [H | H]; [discriminate |]). contradiction.
Qed.

(** X27: whatever the browser does, the page reports both permissions with
    one of the fixed labels (five for the camera, six for the location),
    and never with the "not_requested" the record starts with. *)
Theorem collectTrackingData_labels (b : Page.Browser) :
  exists camera location,
    p_cameraPermission (Page.collectTrackingData b) = Js.val camera /\
    p_locationPermission (Page.collectTrackingData b) = Js.val location /\
    In camera cameraLabels /\ In location locationLabels /\
    camera <> "not_requested" /\ location <> "not_requested".
Proof.
  do 2 eexists. split; [reflexivity |]. split; [reflexivity |].
  assert (Hc : In (match Page.mediaDevices b with
                   | Some Page.CameraStream => "granted"
                   | Some (Page.CameraRejected error) => Page.cameraError error
                   | None => "not_supported"
                   end) cameraLabels).
  { destruct (Page.mediaDevices b) as [[| error] |]; [cbn; tauto | | cbn; tauto].
    right. apply cameraError_label. }
  assert (Hl : In (match Page.geolocation b with
                   | Some (Page.Position _ _) => "granted"
                   | Some (Page.LocationRejected error) =>
                       Page.locationError error
                   | None => "not_supported"
                   end) locationLabels).
  { destruct (Page.geolocation b) as [[? ? | error] |];
      [cbn; tauto | | cbn; tauto].
    right. apply locationError_label. }
  split; [exact Hc |]. split; [exact Hl |].
  split; intros Heq; [rewrite Heq in Hc | rewrite Heq in Hl];
    cbn in *; intuition discriminate.
Qed.

(** X28: the page sends coordinates exactly when the location was granted:
    the payload's locationPermission is "granted" if and only if the
    browser gave a position, and then, and only then, userLatitude and
    userLongitude are in the payload, with the position's values. *)
Theorem collectTrackingData_coordinates (b : Page.Browser) :
  (p_locationPermission (Page.collectTrackingData b) = Js.val "granted" <->
   exists latitude longitude,
     Page.geolocation b = Some (Page.Position latitude longitude)) /\
  (forall latitude longitude,
     Page.geolocation b = Some (Page.Position latitude longitude) ->
     p_userLatitude (Page.collectTrackingData b) = Js.val latitude /\
     p_userLongitude (Page.collectTrackingData b) = Js.val longitude) /\
  (p_locationPermission (Page.collectTrackingData b) <> Js.val "granted" ->
   p_userLatitude (Page.collectTrackingData b) = Js.undefined /\
   p_userLongitude (Page.collectTrackingData b) = Js.undefined).
Proof.
  unfold Page.collectTrackingData.
  cbn [p_locationPermission p_userLatitude p_userLongitude].
  destruct (Page.geolocation b) as [[latitude longitude | error] |].
  - repeat split; eauto; try congruence;
      intros latitude' longitude' [= <- <-]; reflexivity.
  - repeat split; try discriminate;
      try (intros [= Heq]; now apply locationError_not_granted in Heq);
      intros (? & ? & ?); discriminate.
  - repeat split; try discriminate; intros (? & ? & ?); discriminate.
Qed.

Lemma collectTrackingData_coordinates_witness :
  Page.geolocation phone = Some (Page.Position 40.5%float (-3.75)%float) /\
  p_userLatitude (Page.collectTrackingData phone) = Js.val 40.5%float /\
  p_userLongitude (Page.collectTrackingData phone) = Js.val (-3.75)%float.
Proof.
  split; [reflexivity |].
  exact (proj1 (proj2 (collectTrackingData_coordinates phone))
           40.5%float (-3.75)%float eq_refl).
Defined.

Lemma wireNumber_unset_or_finite (v : Js.value float) :
  v <> Js.null ->
  Enhanced.assignIfNotNull (Page.wireNumber v) Js.undefined = Js.undefined \/
  exists x, Enhanced.assignIfNotNull (Page.wireNumber v) Js.undefined = Js.val x
            /\ PrimFloat.is_finite x = true.
Proof.
  intros Hv. destruct v as [| | x]; [now left | congruence |].
  unfold Page.wireNumber.
  destruct (PrimFloat.is_finite x) eqn:Hfinite; [| now left].
  destruct (PrimFloat.eqb x 0%float); right; eexists; split;
    try reflexivity; assumption.
Qed.

(** X29: when a link that exists is resolved by the program with the
    interstitial page and the next request the server handles is the post
    of the payload the page's script collected, for the same identifier,
    the post is accepted, and the link has one more click and one more
    record, which carries the request's address, the labels and the screen
    size the page collected, and for each user coordinate either nothing or
    a finite number: the position's value when that is finite and not zero,
    and nothing when the location was not granted or the value is not
    finite. Whether the page's script runs and its post reaches the server
    is not part of the statement. *)
Theorem page_post_enriches_the_click (req : Request) (b : Page.Browser)
    (w : World) (l : Link) :
  db w !! params_linkId req = Some l ->
  let posted :=
    Enhanced.post_track_update (params_linkId req)
      (Page.requestBody (Page.collectTrackingData b))
      (snd (Enhanced.get_track req w)) in
  fst posted = Normal (SendJson 200 true "Tracking data updated") /\
  exists l' r,
    db (snd posted) !! params_linkId req = Some l' /\
    clicks l' = clicks l + 1 /\
    clickRecords l' = (clickRecords l ++ [r])%list /\
    ipAddress r = getClientIp req /\
    cameraPermission r = p_cameraPermission (Page.collectTrackingData b) /\
    locationPermission r = p_locationPermission (Page.collectTrackingData b) /\
    screenResolution r
    = Js.val (Js.renderInt (Page.screenWidth b) +:+ "x"
              +:+ Js.renderInt (Page.screenHeight b)) /\
    unsetOrFinite (userLatitude r) /\ unsetOrFinite (userLongitude r) /\
    (forall latitude longitude,
       Page.geolocation b = Some (Page.Position latitude longitude) ->
       (PrimFloat.is_finite latitude = true ->
        PrimFloat.eqb latitude 0%float = false ->
        userLatitude r = Js.val latitude) /\
       (PrimFloat.is_finite latitude = false ->
        userLatitude r = Js.undefined) /\
       (PrimFloat.is_finite longitude = true ->
        PrimFloat.eqb longitude 0%float = false ->
        userLongitude r = Js.val longitude) /\
       (PrimFloat.is_finite longitude = false ->
        userLongitude r = Js.undefined)) /\
    (p_locationPermission (Page.collectTrackingData b) <> Js.val "granted" ->
     userLatitude r = Js.undefined /\ userLongitude r = Js.undefined).
Proof.
  intros Hl posted. subst posted.
  destruct (enhanced_get_track_existing req w l Hl)
    as (g & w1 & Hrun & Hdb & _).
  rewrite Hrun. cbn [snd].
  set (r0 := enhancedRecord req (clock w (clockReads w)) g) in Hdb.
  set (l1 := incSetAndPush _ r0 l) in Hdb.
  assert (Hl1 : db w1 !! params_linkId req = Some l1).
  { rewrite Hdb. apply lookup_insert_eq. }
  rewrite (post_track_update_run _ _ w1 l1 (clickRecords l) r0 Hl1 eq_refl).
  split; [reflexivity |]. cbn [snd db withDb].
  do 2 eexists. split; [apply lookup_insert_eq |].
  split; [reflexivity |]. split; [reflexivity |]. split; [reflexivity |].
  split; [reflexivity |]. split; [reflexivity |]. split; [reflexivity |].
  cbn [Enhanced.mergePayload userLatitude userLongitude Page.requestBody
         p_userLatitude p_userLongitude r0 enhancedRecord
         Enhanced.clickRecordOf].
  unfold Page.collectTrackingData.
  cbn [p_userLatitude p_userLongitude p_locationPermission].
  split; [| split; [| split]].
  - apply wireNumber_unset_or_finite.
    destruct (Page.geolocation b) as [[? ? | ?] |]; discriminate.
  - apply wireNumber_unset_or_finite.
    destruct (Page.geolocation b) as [[? ? | ?] |]; discriminate.
  - intros latitude longitude ->. unfold Page.wireNumber.
    repeat split.
    + intros -> ->. reflexivity.
    + intros ->. reflexivity.
    + intros -> ->. reflexivity.
    + intros ->. reflexivity.
  - destruct (Page.geolocation b) as [[? ? | ?] |]; [congruence | |];
      intros _; split; reflexivity.
Qed.

Lemma page_post_enriches_the_click_witness :
  db createdWorld !! params_linkId (browserRequest springId)
  = Some springLink /\
  exists l' r,
    db (snd (Enhanced.post_track_update springId
               (Page.requestBody (Page.collectTrackingData phone))
               (snd (Enhanced.get_track (browserRequest springId)
                       createdWorld))))
      !! springId = Some l' /\
    clicks l' = 1 /\ clickRecords l' = [r] /\
    cameraPermission r = Js.val "no_camera" /\
    screenResolution r = Js.val "390x844" /\
    userLatitude r = Js.val 40.5%float /\
    userLongitude r = Js.val (-3.75)%float.
Proof.
  assert (H : db createdWorld !! params_linkId (browserRequest springId)
              = Some springLink) by (vm_compute; reflexivity).
  split; [exact H |].
  destruct (page_post_enriches_the_click (browserRequest springId) phone
              createdWorld springLink H)
    as (_ & l' & r & Hl' & Hclicks & Hrecords & _ & Hcamera & _ & Hscreen
        & _ & _ & Hlat & _).
  exists l', r. split; [exact Hl' |]. split; [exact Hclicks |].
  split; [exact Hrecords |]. split; [exact Hcamera |].
  split; [exact Hscreen |].
  destruct (Hlat _ _ eq_refl) as (Hlatitude & _ & Hlongitude & _).
  split; [exact (Hlatitude eq_refl eq_refl) | exact (Hlongitude eq_refl eq_refl)].
Defined.

Example phone_payload_on_the_wire :
  Page.requestBody (Page.collectTrackingData phone)
  = {| p_cameraPermission := Js.val "no_camera";
       p_locationPermission := Js.val "granted";
       p_userLatitude := Js.val 40.5%float;
       p_userLongitude := Js.val (-3.75)%float;
       p_screenResolution := Js.val "390x844";
       p_language := Js.val "es-ES";
       p_timezone := Js.val "Europe/Madrid";
       p_connectionType := Js.val "4g" |}.
Proof. vm_compute. reflexivity. Qed.
